(** * NDVI-based vegetation monitoring: a shallow embedding of [app.py]

    The script computes a median NDVI composite of Sentinel-2 scenes over
    Karnataka, derives four threshold masks from it, samples points of the
    composite and labels every point with a density class.

    Index values are modelled as exact rationals ([Q]); the thresholds
    0.2, 0.4 and 0.6 are the decimal literals of the script.  A raster band
    is a function from pixel locations to optional values, [None] being a
    masked (no-data) pixel. *)

From Stdlib Require Import QArith ZArith List String Bool Lia Lqa Sorting Permutation.
From stdpp Require Import gmap strings list.
Import ListNotations.

Local Open Scope string_scope.
Local Open Scope list_scope.

(** ** Earth Engine primitives used by the script *)

Module EE.

(** A pixel location on the working grid. *)
Definition Pixel : Type := (Z * Z)%type.

(** A geometry is the finite set of grid cells it covers; a point is a
    single cell. *)
Definition Geometry : Type := list Pixel.

(** Property values of features and images. *)
Inductive Value : Type :=
| Num (q : Q)
| Str (s : string).

Record Feature : Type := mkFeature {
  geometry : Geometry;
  properties : gmap string Value
}.

(** A single-band raster; [None] is a masked pixel. *)
Definition Image : Type := Pixel -> option Q.

(** A Sentinel-2 surface-reflectance scene: footprint, acquisition time
    (milliseconds since the epoch), metadata and the two bands read by
    the script. *)
Record Scene : Type := mkScene {
  footprint : Geometry;
  time_start : Z;
  metadata : gmap string Value;
  B4 : Image;
  B8 : Image
}.

(** Elements of a collection expose properties by name. *)
Class Element (A : Type) : Type := get : A -> string -> option Value.

#[export] Instance Feature_Element : Element Feature :=
  fun f k => properties f !! k.

#[export] Instance Scene_Element : Element Scene :=
  fun s k => metadata s !! k.

(** [f.set(k, v)]: overrides one property, keeps everything else. *)
Definition set (f : Feature) (k : string) (v : Value) : Feature :=
  {| geometry := geometry f; properties := <[k := v]> (properties f) |}.

(** *** Numbers *)

Definition Qltb (x y : Q) : bool := negb (Qle_bool y x).

Definition of_bool (b : bool) : Q := if b then 1%Q else 0%Q.

(** [a.gt(b)]: 1 iff [a > b], else 0. *)
Definition Number_gt (a b : Q) : Q := of_bool (Qltb b a).

(** [a.lte(b)]: 1 iff [a <= b], else 0. *)
Definition Number_lte (a b : Q) : Q := of_bool (Qle_bool a b).

(** A number is true when it is non-zero. *)
Definition truthy (q : Q) : bool := negb (Qeq_bool q 0).

(** [a.And(b)]: 1 iff both are non-zero. *)
Definition Number_And (a b : Q) : Q := of_bool (truthy a && truthy b).

(** [ee.Algorithms.If(condition, trueCase, falseCase)]. *)
Definition Algorithms_If {A : Type} (condition : Q) (trueCase falseCase : A) : A :=
  if truthy condition then trueCase else falseCase.

(** *** Pixel-wise image operations; masked inputs give masked outputs *)

Definition Image_gt (img : Image) (c : Q) : Image :=
  fun p => match img p with
           | Some v => Some (Number_gt v c)
           | None => None
           end.

Definition Image_lte (img : Image) (c : Q) : Image :=
  fun p => match img p with
           | Some v => Some (Number_lte v c)
           | None => None
           end.

Definition Image_And (a b : Image) : Image :=
  fun p => match a p, b p with
           | Some x, Some y => Some (Number_And x y)
           | _, _ => None
           end.

(** [img.selfMask()]: masks the pixels whose value is zero. *)
Definition selfMask (img : Image) : Image :=
  fun p => match img p with
           | Some v => if truthy v then Some v else None
           | None => None
           end.

(** *** Geometry *)

Definition covers (g : Geometry) (p : Pixel) : bool := bool_decide (p ∈ g).

Definition intersects (g1 g2 : Geometry) : bool := existsb (covers g2) g1.

(** The geometry of a feature collection is the union of its features'
    geometries. *)
Definition Collection_geometry (fc : list Feature) : Geometry :=
  concat (map geometry fc).

(** Modelled from the spec: Earth Engine's [clip] is not part of the
    repository.  Pixels outside the geometry of the collection become
    masked (no-data); the others are unchanged. *)
Definition clip (img : Image) (fc : list Feature) : Image :=
  fun p => if covers (Collection_geometry fc) p then img p else None.

(** *** Filters *)

Inductive Filter : Type :=
| Filter_eq (name : string) (value : Value)
| Filter_lt (name : string) (value : Q).

(** Equality of property values: exact on strings (case-sensitive), by
    value on numbers. *)
Definition Value_eqb (a b : Value) : bool :=
  match a, b with
  | Num x, Num y => Qeq_bool x y
  | Str s, Str t => String.eqb s t
  | _, _ => false
  end.

(** An element passes a filter only if it has the property. *)
Definition Filter_apply {A : Type} `{Element A} (flt : Filter) (x : A) : bool :=
  match flt with
  | Filter_eq name value =>
      match get x name with
      | Some v => Value_eqb v value
      | None => false
      end
  | Filter_lt name value =>
      match get x name with
      | Some (Num v) => Qltb v value
      | _ => false
      end
  end.

(** [collection.filter(flt)] *)
Definition filter {A : Type} `{Element A} (flt : Filter) (coll : list A) : list A :=
  List.filter (Filter_apply flt) coll.

(** Modelled from the spec: Earth Engine's [filterBounds] is not part of
    the repository.  It keeps the scenes whose footprint intersects the
    region geometry. *)
Definition filterBounds (coll : list Scene) (region : list Feature) : list Scene :=
  List.filter (fun s => intersects (footprint s) (Collection_geometry region)) coll.

(** Days since 1970-01-01 of a proleptic Gregorian calendar date. *)
Definition days_from_civil (y m d : Z) : Z :=
  let y' := if (m <=? 2)%Z then (y - 1)%Z else y in
  let era := (y' / 400)%Z in
  let yoe := (y' - era * 400)%Z in
  let mp := if (2 <? m)%Z then (m - 3)%Z else (m + 9)%Z in
  let doy := ((153 * mp + 2) / 5 + d - 1)%Z in
  let doe := (yoe * 365 + yoe / 4 - yoe / 100 + doy)%Z in
  (era * 146097 + doe - 719468)%Z.

(** [ee.Date("y-m-d")]: midnight UTC of that day, in milliseconds. *)
Definition Date (y m d : Z) : Z := (days_from_civil y m d * 86400000)%Z.

(** Modelled from the spec: Earth Engine's [filterDate] is not part of the
    repository.  It keeps the scenes acquired in the half-open range
    [[start, end)]: the start is inclusive, the end exclusive. *)
Definition filterDate (coll : list Scene) (start end_ : Z) : list Scene :=
  List.filter (fun s => (start <=? time_start s)%Z && (time_start s <? end_)%Z) coll.

(** *** Evaluation outcomes *)

(** What evaluating an expression can end in.  [EEException] is the error
    of the Earth Engine client; [RegionNotFound] and [EmptyCompositeError]
    are the failures named by the specification. *)
Inductive Failure : Type :=
| EEException
| RegionNotFound
| EmptyCompositeError.

Inductive Outcome (A : Type) : Type :=
| Returned (a : A)
| Raised (e : Failure).

Arguments Returned {A} a.
Arguments Raised {A} e.

Definition bind {A B : Type} (m : Outcome A) (k : A -> Outcome B) : Outcome B :=
  match m with
  | Returned a => k a
  | Raised e => Raised e
  end.

(** [collection.map(f)]: fails as soon as [f] fails on an element. *)
Fixpoint map_collection {A B : Type} (f : A -> Outcome B) (coll : list A) : Outcome (list B) :=
  match coll with
  | [] => Returned []
  | x :: rest =>
      bind (f x) (fun y => bind (map_collection f rest) (fun ys => Returned (y :: ys)))
  end.

(** [ee.Number(x)] applied to a property: a number, or an error when the
    property is absent or not numeric. *)
Definition Number (x : option Value) : Outcome Q :=
  match x with
  | Some (Num q) => Returned q
  | _ => Raised EEException
  end.

(** *** Band arithmetic and reduction *)

Definition negative (x : Q) : bool := Qltb x 0.

(** Modelled from the spec: Earth Engine's [normalizedDifference] is not
    part of the repository.  Per pixel it is
    [(first - second) / (first + second)]; where [first + second = 0] the
    result is a masked (no-data) pixel, no error is raised.  Earth Engine's
    reference adds that the pixel is masked as well when an input is
    masked or negative.  The quotient is the exact rational one; rounding
    of the floating-point result is not modelled. *)
Definition normalizedDifference (first second : Image) : Image :=
  fun p => match first p, second p with
           | Some a, Some b =>
               if negative a || negative b then None
               else if Qeq_bool (a + b) 0 then None
               else Some ((a - b) / (a + b))%Q
           | _, _ => None
           end.

Fixpoint Qinsert (x : Q) (l : list Q) : list Q :=
  match l with
  | [] => [x]
  | y :: l' => if Qle_bool x y then x :: l else y :: Qinsert x l'
  end.

Definition Qsort (l : list Q) : list Q := fold_right Qinsert [] l.

(** Modelled from the spec: Earth Engine's median reducer is not part of
    the repository.  The median of no value is undefined; of an odd number
    of values it is the middle one in sorted order; of an even number it is
    the mean of the two middle ones. *)
Definition Reducer_median (l : list Q) : option Q :=
  let s := Qsort l in
  let n := length s in
  match n with
  | O => None
  | _ => if Nat.even n
         then Some ((nth (n / 2 - 1) s 0 + nth (n / 2) s 0) / 2)%Q
         else Some (nth (n / 2) s 0%Q)
  end.

(** The unmasked values of a stack of images at one pixel. *)
Definition defined_values (imgs : list Image) (p : Pixel) : list Q :=
  omap (fun img : Image => img p) imgs.

(** The stack reduced pixel by pixel over the unmasked values only; a
    pixel unmasked in no image stays masked. *)
Definition median_pixels (imgs : list Image) : Image :=
  fun p => Reducer_median (defined_values imgs p).

(** Modelled from the spec: Earth Engine's [ImageCollection.median()] is
    not part of the repository.  On an empty scene set the reduction fails
    with [EmptyCompositeError]; on a non-empty one it returns the pixel-wise
    median of the defined values, a pixel defined in no scene staying
    no-data. *)
Definition median (imgs : list Image) : Outcome Image :=
  match imgs with
  | [] => Raised EmptyCompositeError
  | _ :: _ => Returned (median_pixels imgs)
  end.

(** *** Sampling *)

(** The feature of a sampled pixel: one property per band and, when
    [geometries] is set, the point as geometry. *)
Definition sampled_feature (band : string) (geometries : bool) (p : Pixel) (v : Q) :
    Feature :=
  {| geometry := if geometries then [p] else [];
     properties := {[ band := Num v ]} |}.

(** Modelled from the spec: Earth Engine's [Image.sample] is not part of
    the repository.  [draws scale] is the pseudo-random sequence of pixel
    locations of the grid of resolution [scale] that the sampler visits.
    At most [numPixels] of them lying in the region are drawn; a draw on a
    masked pixel yields no feature, the others yield a point carrying the
    band value. *)
Definition sample (band : string) (img : Image) (region : list Feature)
    (scale : Z) (numPixels : nat) (geometries : bool)
    (draws : Z -> list Pixel) : list Feature :=
  omap (fun p => match img p with
                 | Some v => Some (sampled_feature band geometries p v)
                 | None => None
                 end)
       (take numPixels (List.filter (covers (Collection_geometry region)) (draws scale))).

End EE.

Import EE.

Notation "'let!' x ':=' m 'in' k" := (bind m (fun x => k))
  (at level 10, x name, m at level 100, k at level 200).

(** ** The script *)

(** *** Load Karnataka boundary *)

(** [states.filter(ee.Filter.eq("ADM1_NAME", name))]: the region filter
    at an arbitrary region name. *)
Definition region_filter (states : list Feature) (name : string) : list Feature :=
  filter (Filter_eq "ADM1_NAME" (Str name)) states.

Definition karnataka (states : list Feature) : list Feature :=
  region_filter states "Karnataka".

(** *** Load Sentinel-2 data *)

(** The scene collector at an arbitrary region, date range and cloud
    threshold. *)
Definition scene_collector (S2_SR : list Scene) (region : list Feature)
    (start end_ : Z) (max_cloud : Q) : list Scene :=
  filter (Filter_lt "CLOUDY_PIXEL_PERCENTAGE" max_cloud)
    (filterDate (filterBounds S2_SR region) start end_).

Definition collection (S2_SR : list Scene) (states : list Feature) : list Scene :=
  scene_collector S2_SR (karnataka states) (Date 2023 1 1) (Date 2023 12 31) 20.

(** *** NDVI calculation *)

(** A scene with the NDVI band added. *)
Record NdviScene : Type := addBands {
  image : Scene;
  NDVI : Image
}.

Definition add_ndvi (image : Scene) : NdviScene :=
  let ndvi := normalizedDifference (B8 image) (B4 image) in
  addBands image ndvi.

(** The index compositor at an arbitrary scene set and region. *)
Definition compositor (scenes : list Scene) (region : list Feature) : Outcome Image :=
  let! composite := median (map NDVI (map add_ndvi scenes)) in
  Returned (clip composite region).

Definition ndvi_image (S2_SR : list Scene) (states : list Feature) : Outcome Image :=
  compositor (collection S2_SR states) (karnataka states).

(** *** NDVI classification (raster masks) *)

Definition dense (ndvi_image : Image) : Image :=
  Image_gt ndvi_image 0.6.

Definition moderate (ndvi_image : Image) : Image :=
  Image_And (Image_gt ndvi_image 0.4) (Image_lte ndvi_image 0.6).

Definition sparse (ndvi_image : Image) : Image :=
  Image_And (Image_gt ndvi_image 0.2) (Image_lte ndvi_image 0.4).

Definition nonveg (ndvi_image : Image) : Image :=
  Image_lte ndvi_image 0.2.

(** *** Sample points and their classes *)

(** The point sampler at an arbitrary raster, region, scale and count. *)
Definition point_sampler (img : Image) (region : list Feature) (scale : Z)
    (numPixels : nat) (draws : Z -> list Pixel) : list Feature :=
  sample "NDVI" img region scale numPixels true draws.

(** The nested conditional of [classify_point]. *)
Definition class_label (v : Q) : string :=
  Algorithms_If (Number_gt v 0.6) "Dense"
    (Algorithms_If (Number_gt v 0.4) "Moderate"
       (Algorithms_If (Number_gt v 0.2) "Sparse"
          "Built-up")).

Definition classify_point (f : Feature) : Outcome Feature :=
  let! v := Number (get f "NDVI") in
  Returned (set f "Class" (Str (class_label v))).

Definition points (S2_SR : list Scene) (states : list Feature)
    (draws : Z -> list Pixel) : Outcome (list Feature) :=
  let! ndvi_image := ndvi_image S2_SR states in
  let points := point_sampler ndvi_image (karnataka states) 1000 300 draws in
  map_collection classify_point points.

(** [points.filter(ee.Filter.eq("Class", label))]: the points of one layer. *)
Definition class_points (points : list Feature) (label : string) : list Feature :=
  filter (Filter_eq "Class" (Str label)) points.

(** *** The four classes and their layers *)

Inductive DensityClass : Type :=
| Dense
| Moderate
| Sparse
| BuiltUp.

Definition all_classes : list DensityClass := [Dense; Moderate; Sparse; BuiltUp].

(** The raster mask of a class. *)
Definition mask_of (c : DensityClass) : Image -> Image :=
  match c with
  | Dense => dense
  | Moderate => moderate
  | Sparse => sparse
  | BuiltUp => nonveg
  end.

(** The point label of a class. *)
Definition label_of (c : DensityClass) : string :=
  match c with
  | Dense => "Dense"
  | Moderate => "Moderate"
  | Sparse => "Sparse"
  | BuiltUp => "Built-up"
  end.

(** A pixel shows in a layer [mask.selfMask()] when it is unmasked there. *)
Definition in_layer (mask : Image) (p : Pixel) : bool :=
  match selfMask mask p with
  | Some _ => true
  | None => false
  end.

(** The classes whose layer shows the pixel. *)
Definition raster_classes (ndvi_image : Image) (p : Pixel) : list DensityClass :=
  List.filter (fun c => in_layer (mask_of c ndvi_image) p) all_classes.

(** *** The pipeline as a whole *)

Record Results : Type := mkResults {
  region : list Feature;
  scenes : list Scene;
  raster : Image;
  labelled : list Feature
}.

(** Region filter, scene collector, index compositor, point sampler and
    point classifier in sequence, at arbitrary parameters: what the script
    computes for the classification map. *)
Definition pipeline (states : list Feature) (name : string) (S2_SR : list Scene)
    (start end_ : Z) (max_cloud : Q) (scale : Z) (numPixels : nat)
    (draws : Z -> list Pixel) : Outcome Results :=
  let region := region_filter states name in
  let scenes := scene_collector S2_SR region start end_ max_cloud in
  let! raster := compositor scenes region in
  let! labelled := map_collection classify_point
                     (point_sampler raster region scale numPixels draws) in
  Returned (mkResults region scenes raster labelled).

(** The script: the pipeline at its constants. *)
Definition app (states : list Feature) (S2_SR : list Scene)
    (draws : Z -> list Pixel) : Outcome Results :=
  pipeline states "Karnataka" S2_SR (Date 2023 1 1) (Date 2023 12 31) 20 1000 300 draws.

(** *** Order statistics *)

Definition count_le (l : list Q) (m : Q) : nat :=
  length (List.filter (fun x => Qle_bool x m) l).

Definition count_ge (l : list Q) (m : Q) : nat :=
  length (List.filter (fun x => Qle_bool m x) l).

(** [m] is a median of [l]: at least half of the values are at most [m]
    and at least half are at least [m]. *)
Definition is_median (l : list Q) (m : Q) : Prop :=
  (length l <= 2 * count_le l m)%nat /\ (length l <= 2 * count_ge l m)%nat.

(** The per-scene index rasters of a scene set. *)
Definition scene_indices (scenes : list Scene) : list Image :=
  map NDVI (map add_ndvi scenes).

(** The raster the compositor returns on a non-empty scene set: the
    pixel-wise median of the per-scene indices, clipped to the region. *)
Definition composite_raster (scenes : list Scene) (region : list Feature) : Image :=
  clip (median_pixels (scene_indices scenes)) region.

(** *** Auxiliary notions used in the statements *)

(** The three thresholds cut the rationals into four bands; in each band
    the outcome of every comparison of the script is fixed. *)
Inductive Band (v : Q) : Type :=
| band_nonveg : Qle_bool v 0.2 = true -> Qle_bool v 0.4 = true ->
    Qle_bool v 0.6 = true -> Band v
| band_sparse : Qle_bool v 0.2 = false -> Qle_bool v 0.4 = true ->
    Qle_bool v 0.6 = true -> Band v
| band_moderate : Qle_bool v 0.2 = false -> Qle_bool v 0.4 = false ->
    Qle_bool v 0.6 = true -> Band v
| band_dense : Qle_bool v 0.2 = false -> Qle_bool v 0.4 = false ->
    Qle_bool v 0.6 = false -> Band v.

(** The locations drawn by the sampler: the first [numPixels] in-region
    entries of the draw sequence. *)
Definition drawn (region : list Feature) (scale : Z) (numPixels : nat)
    (draws : Z -> list Pixel) : list Pixel :=
  take numPixels (List.filter (covers (Collection_geometry region)) (draws scale)).

(** The pixel is masked in the image. *)
Definition no_data (img : Image) (p : Pixel) : bool :=
  match img p with
  | Some _ => false
  | None => true
  end.

(** The label a point gets, as a total function of the feature. *)
Definition labelled_point (f : Feature) : Feature :=
  match get f "NDVI" with
  | Some (Num v) => set f "Class" (Str (class_label v))
  | _ => f
  end.

(** A boundary feature with a name attribute. *)
Definition named (name : string) (g : Geometry) : Feature :=
  {| geometry := g; properties := {[ "ADM1_NAME" := Str name ]} |}.

(** A boundary dataset with two features, neither named "Nonexistent". *)
Definition two_states : list Feature :=
  [named "Karnataka" [(0, 0)%Z; (0, 1)%Z]; named "Kerala" [(1, 0)%Z]].

(** A boundary dataset with two features of the same name. *)
Definition ambiguous_states : list Feature :=
  [named "Karnataka" [(0, 0)%Z]; named "Karnataka" [(5, 5)%Z]].

(** The footprint of the scene and the region have a cell in common. *)
Definition in_bounds (s : Scene) (region : list Feature) : Prop :=
  exists p : Pixel,
    In p (footprint s) /\ exists g : Feature, In g region /\ In p (geometry g).

(** A scene with constant bands over its footprint, masked elsewhere. *)
Definition uniform_scene (cells : Geometry) (b8 b4 : Q) : Scene :=
  {| footprint := cells; time_start := Date 2023 6 1;
     metadata := {[ "CLOUDY_PIXEL_PERCENTAGE" := Num 5 ]};
     B4 := fun p => if covers cells p then Some b4 else None;
     B8 := fun p => if covers cells p then Some b8 else None |}.

(** A scene over the cell (0, 0) with the given acquisition time and
    cloud cover. *)
Definition scene_at (t : Z) (cloud : Q) : Scene :=
  {| footprint := [(0, 0)%Z]; time_start := t;
     metadata := {[ "CLOUDY_PIXEL_PERCENTAGE" := Num cloud ]};
     B4 := fun _ => Some 0.2%Q; B8 := fun _ => Some 0.8%Q |}.

(** A region of a single cell. *)
Definition one_cell_region : list Feature := [named "Karnataka" [(0, 0)%Z]].

(** The order of the classes, from bare to dense. *)
Definition class_rank (c : DensityClass) : nat :=
  match c with
  | BuiltUp => 0
  | Sparse => 1
  | Moderate => 2
  | Dense => 3
  end.

(** Equality of classes. *)
Definition class_eqb (c c' : DensityClass) : bool :=
  Nat.eqb (class_rank c) (class_rank c').

(** Two pixel values are the same: both no-data, or equal as numbers. *)
Definition same_value (x y : option Q) : Prop :=
  match x, y with
  | Some v, Some w => (v == w)%Q
  | None, None => True
  | _, _ => False
  end.

(** The three conditions of the script's collection, as a proposition. *)
Definition accepted (s : Scene) (states : list Feature) : Prop :=
  in_bounds s (karnataka states)
  /\ (Date 2023 1 1 <= time_start s < Date 2023 12 31)%Z
  /\ exists c : Q, get s "CLOUDY_PIXEL_PERCENTAGE" = Some (Num c) /\ (c < 20)%Q.

(** * Properties *)

(** ** Comparisons *)

Lemma Qltb_lt (x y : Q) : Qltb x y = true <-> (x < y)%Q.
Proof.
  unfold Qltb. rewrite negb_true_iff.
  split.
  - intros Hle. apply Qnot_le_lt. intros Hyx.
    apply Qle_bool_iff in Hyx. congruence.
  - intros Hlt. destruct (Qle_bool y x) eqn:E; [|reflexivity].
    apply Qle_bool_iff in E. exfalso. exact (Qlt_not_le _ _ Hlt E).
Qed.

Lemma Qle_bool_false (x y : Q) : Qle_bool x y = false <-> (y < x)%Q.
Proof.
  rewrite <- Qltb_lt. unfold Qltb.
  destruct (Qle_bool x y); simpl; split; congruence.
Qed.

Lemma band_of (v : Q) : Band v.
Proof.
  destruct (Qle_bool v 0.2) eqn:E2, (Qle_bool v 0.4) eqn:E4,
    (Qle_bool v 0.6) eqn:E6;
    try (constructor; assumption); exfalso;
    repeat match goal with
      | H : Qle_bool _ _ = true |- _ => apply Qle_bool_iff in H
      | H : Qle_bool _ _ = false |- _ => apply Qle_bool_false in H
      end; lra.
Qed.

Ltac by_band E2 E4 E6 :=
  unfold Number_And, Number_gt, Number_lte, Qltb;
  rewrite ?E2, ?E4, ?E6; simpl.

(** ** Classifier *)

Lemma mask_of_defined (c : DensityClass) (img : Image) (p : Pixel) (v : Q) :
  img p = Some v -> mask_of c img p = mask_of c (fun _ => Some v) p.
Proof.
  intros Hv.
  destruct c; unfold mask_of, dense, moderate, sparse, nonveg,
    Image_And, Image_gt, Image_lte; rewrite Hv; reflexivity.
Qed.

Lemma mask_of_masked (c : DensityClass) (img : Image) (p : Pixel) :
  img p = None -> mask_of c img p = None.
Proof.
  intros Hv.
  destruct c; unfold mask_of, dense, moderate, sparse, nonveg,
    Image_And, Image_gt, Image_lte; rewrite Hv; reflexivity.
Qed.

Lemma raster_classes_defined (img : Image) (p : Pixel) (v : Q) :
  img p = Some v -> raster_classes img p = raster_classes (fun _ => Some v) p.
Proof.
  intros Hv. unfold raster_classes, all_classes, List.filter, in_layer, selfMask.
  rewrite !(mask_of_defined _ img p v Hv). reflexivity.
Qed.

Ltac in_band E2 E4 E6 :=
  unfold raster_classes, all_classes, List.filter, in_layer, selfMask, class_label,
    Algorithms_If;
  repeat split;
  try (intros [] Hc; try congruence);
  unfold mask_of, dense, moderate, sparse, nonveg, Image_And, Image_gt, Image_lte;
  by_band E2 E4 E6; reflexivity.

(** The class whose band holds [v]. *)
Lemma class_of_value (v : Q) (p : Pixel) :
  { c : DensityClass |
    mask_of c (fun _ => Some v) p = Some 1%Q
    /\ (forall c', c' <> c -> mask_of c' (fun _ => Some v) p = Some 0%Q)
    /\ raster_classes (fun _ => Some v) p = [c]
    /\ class_label v = label_of c }.
Proof.
  destruct (band_of v) as [E2 E4 E6|E2 E4 E6|E2 E4 E6|E2 E4 E6].
  - exists BuiltUp. in_band E2 E4 E6.
  - exists Sparse. in_band E2 E4 E6.
  - exists Moderate. in_band E2 E4 E6.
  - exists Dense. in_band E2 E4 E6.
Qed.

(** C1. Every defined index value lies in exactly one class: at a pixel
    of value [v] one of the masks dense, moderate, sparse, nonveg is 1 and
    the three others are 0, so exactly one layer shows the pixel and no two
    layers share it; a no-data pixel is masked in all four masks. *)
Theorem masks_partition (img : Image) (p : Pixel) (v : Q) :
  img p = Some v ->
  (exists c : DensityClass,
      mask_of c img p = Some 1%Q
      /\ (forall c', c' <> c -> mask_of c' img p = Some 0%Q)
      /\ raster_classes img p = [c])
  /\ (forall c1 c2 : DensityClass,
        in_layer (mask_of c1 img) p = true ->
        in_layer (mask_of c2 img) p = true -> c1 = c2)
  /\ (forall q : Pixel, img q = None ->
        forall c, mask_of c img q = None /\ in_layer (mask_of c img) q = false).
Proof.
  intros Hv.
  destruct (class_of_value v p) as (c & H1 & H0 & Hrc & _).
  split; [|split].
  - exists c. rewrite (raster_classes_defined img p v Hv).
    rewrite (mask_of_defined c img p v Hv). repeat split; try assumption.
    intros c' Hc'. rewrite (mask_of_defined c' img p v Hv). auto.
  - assert (Hone : forall c', in_layer (mask_of c' img) p = true -> c' = c).
    { intros c' Hin.
      destruct c, c'; try reflexivity; exfalso;
        unfold in_layer, selfMask in Hin;
        rewrite (mask_of_defined _ img p v Hv) in Hin;
        rewrite H0 in Hin by congruence; discriminate Hin. }
    intros c1 c2 Hc1 Hc2. rewrite (Hone c1 Hc1), (Hone c2 Hc2). reflexivity.
  - intros q Hq c'. unfold in_layer, selfMask.
    rewrite (mask_of_masked c' img q Hq). split; reflexivity.
Qed.

Lemma masks_partition_witness :
  exists c : DensityClass,
    mask_of c (fun _ => Some 0.5%Q) (0, 0)%Z = Some 1%Q
    /\ (forall c', c' <> c -> mask_of c' (fun _ => Some 0.5%Q) (0, 0)%Z = Some 0%Q)
    /\ raster_classes (fun _ => Some 0.5%Q) (0, 0)%Z = [c].
Proof.
  exact (proj1 (masks_partition (fun _ => Some 0.5%Q) (0, 0)%Z 0.5%Q eq_refl)).
Defined.

(** The point label and the raster layers of a value, by band. *)
Lemma class_label_cases (v : Q) :
  class_label v =
    if Qle_bool v 0.2 then "Built-up"
    else if Qle_bool v 0.4 then "Sparse"
    else if Qle_bool v 0.6 then "Moderate"
    else "Dense".
Proof.
  unfold class_label, Algorithms_If.
  destruct (band_of v) as [E2 E4 E6|E2 E4 E6|E2 E4 E6|E2 E4 E6];
    by_band E2 E4 E6; reflexivity.
Qed.

Lemma raster_classes_cases (v : Q) (p : Pixel) :
  raster_classes (fun _ => Some v) p =
    if Qle_bool v 0.2 then [BuiltUp]
    else if Qle_bool v 0.4 then [Sparse]
    else if Qle_bool v 0.6 then [Moderate]
    else [Dense].
Proof.
  unfold raster_classes, all_classes, List.filter, in_layer, selfMask.
  unfold mask_of, dense, moderate, sparse, nonveg, Image_And, Image_gt, Image_lte.
  destruct (band_of v) as [E2 E4 E6|E2 E4 E6|E2 E4 E6|E2 E4 E6];
    by_band E2 E4 E6; reflexivity.
Qed.

(** C2, as stated, fails at the boundary 0.4: the point classifier labels
    0.4 "Sparse", not "Moderate", and on the raster a pixel of value 0.4
    shows in the sparse layer and not in the moderate one. *)
Lemma boundary_04_is_sparse :
  class_label 0.4 = "Sparse"
  /\ class_label 0.4 <> "Moderate"
  /\ raster_classes (fun _ => Some 0.4%Q) (0, 0)%Z = [Sparse]
  /\ moderate (fun _ => Some 0.4%Q) (0, 0)%Z = Some 0%Q.
Proof.
  repeat split; try reflexivity. discriminate.
Qed.

(** C2, amended. Each band is closed at its upper bound: 0.6 is Moderate
    (not Dense), 0.4 is Sparse, 0.2 is Built-up; just above a boundary the
    value is in the next band, 0.4 + eps is Moderate and 0.2 + eps is
    Sparse for every 0 < eps <= 0.2.  Point labels and raster layers agree
    on all of these. *)
Theorem boundary_exactness (eps : Q) (p : Pixel) :
  (0 < eps)%Q -> (eps <= 0.2)%Q ->
  (class_label 0.6 = "Moderate" /\ raster_classes (fun _ => Some 0.6%Q) p = [Moderate])
  /\ (class_label 0.4 = "Sparse" /\ raster_classes (fun _ => Some 0.4%Q) p = [Sparse])
  /\ (class_label (0.4 + eps) = "Moderate"
      /\ raster_classes (fun _ => Some (0.4 + eps)%Q) p = [Moderate])
  /\ (class_label 0.2 = "Built-up" /\ raster_classes (fun _ => Some 0.2%Q) p = [BuiltUp])
  /\ (class_label (0.2 + eps) = "Sparse"
      /\ raster_classes (fun _ => Some (0.2 + eps)%Q) p = [Sparse]).
Proof.
  intros Hpos Hsmall.
  assert (A2 : Qle_bool (0.2 + eps) 0.2 = false) by (apply Qle_bool_false; lra).
  assert (A4 : Qle_bool (0.2 + eps) 0.4 = true) by (apply Qle_bool_iff; lra).
  assert (B2 : Qle_bool (0.4 + eps) 0.2 = false) by (apply Qle_bool_false; lra).
  assert (B4 : Qle_bool (0.4 + eps) 0.4 = false) by (apply Qle_bool_false; lra).
  assert (B6 : Qle_bool (0.4 + eps) 0.6 = true) by (apply Qle_bool_iff; lra).
  rewrite !class_label_cases, !raster_classes_cases.
  rewrite A2, A4, B2, B4, B6.
  repeat split; reflexivity.
Qed.

Lemma boundary_exactness_witness :
  class_label (0.4 + 0.01) = "Moderate" /\ class_label (0.2 + 0.01) = "Sparse".
Proof.
  assert (Hpos : (0 < 0.01)%Q) by reflexivity.
  assert (Hsmall : (0.01 <= 0.2)%Q) by (unfold Qle; simpl; lia).
  destruct (boundary_exactness 0.01 (0, 0)%Z Hpos Hsmall)
    as (_ & _ & [Hm _] & _ & [Hs _]).
  split; assumption.
Defined.

(** C3. At every defined index value the raster masks and the nested
    conditional of [classify_point] assign the same class: the labels of
    the layers showing a pixel of value [v] are exactly the point label of
    [v], and a mask holds at the pixel if and only if the point label is
    that mask's class. *)
Theorem raster_point_agree (img : Image) (p : Pixel) (v : Q) :
  img p = Some v ->
  map label_of (raster_classes img p) = [class_label v]
  /\ (forall c : DensityClass,
        mask_of c img p = Some 1%Q <-> class_label v = label_of c)
  /\ (forall c : DensityClass,
        in_layer (mask_of c img) p = true <-> class_label v = label_of c).
Proof.
  intros Hv.
  destruct (class_of_value v p) as (c & H1 & H0 & Hrc & Hl).
  assert (Hiff : forall c', class_label v = label_of c' <-> c' = c).
  { intros c'. rewrite Hl. split; [|intros ->; reflexivity].
    destruct c, c'; simpl; intros Heq; try reflexivity; discriminate Heq. }
  split; [|split].
  - rewrite (raster_classes_defined img p v Hv), Hrc, Hl. reflexivity.
  - intros c'. rewrite (mask_of_defined c' img p v Hv), Hiff. split.
    + intros Hm. destruct c, c'; try reflexivity;
        rewrite H0 in Hm by congruence; discriminate Hm.
    + intros ->. exact H1.
  - intros c'. unfold in_layer, selfMask.
    rewrite (mask_of_defined c' img p v Hv), Hiff. split.
    + intros Hm. destruct c, c'; try reflexivity;
        rewrite H0 in Hm by congruence; discriminate Hm.
    + intros ->. rewrite H1. reflexivity.
Qed.

Lemma raster_point_agree_witness :
  map label_of (raster_classes (fun _ => Some 0.6%Q) (3, 4)%Z) = [class_label 0.6].
Proof.
  exact (proj1 (raster_point_agree (fun _ => Some 0.6%Q) (3, 4)%Z 0.6%Q eq_refl)).
Defined.

(** ** Point classifier *)

(** C10. On a feature carrying a numeric NDVI, [classify_point] returns a
    feature that differs from its input in the "Class" property only: the
    geometry, the NDVI value and every property other than "Class" are
    those of the input, and "Class" is the label of the NDVI value. *)
Theorem classify_point_frame (f : Feature) (v : Q) :
  get f "NDVI" = Some (Num v) ->
  exists f' : Feature,
    classify_point f = Returned f'
    /\ geometry f' = geometry f
    /\ get f' "NDVI" = Some (Num v)
    /\ get f' "Class" = Some (Str (class_label v))
    /\ (forall k : string, k <> "Class" -> get f' k = get f k)
    /\ properties f' = <["Class" := Str (class_label v)]> (properties f).
Proof.
  intros Hv. unfold classify_point. rewrite Hv. simpl.
  eexists. split; [reflexivity|].
  unfold get, Feature_Element, set in *. simpl.
  repeat split.
  - rewrite lookup_insert_ne by discriminate. exact Hv.
  - apply lookup_insert_eq.
  - intros k Hk. apply lookup_insert_ne. congruence.
Qed.

Lemma classify_point_frame_witness :
  exists f' : Feature,
    classify_point (sampled_feature "NDVI" true (7, 9)%Z 0.5) = Returned f'
    /\ geometry f' = [(7, 9)%Z]
    /\ get f' "NDVI" = Some (Num 0.5)
    /\ get f' "Class" = Some (Str "Moderate").
Proof.
  destruct (classify_point_frame (sampled_feature "NDVI" true (7, 9)%Z 0.5) 0.5 eq_refl)
    as (f' & Hr & Hg & Hn & Hc & _).
  exists f'. repeat split; assumption.
Defined.

(** ** Point sampler *)

Lemma sample_as_omap (band : string) (img : Image) (region : list Feature)
    (scale : Z) (numPixels : nat) (geometries : bool) (draws : Z -> list Pixel) :
  sample band img region scale numPixels geometries draws =
    omap (fun p => match img p with
                   | Some v => Some (sampled_feature band geometries p v)
                   | None => None
                   end) (drawn region scale numPixels draws).
Proof. reflexivity. Qed.

Lemma sampled_count (band : string) (geometries : bool) (img : Image)
    (l : list Pixel) :
  (length (omap (fun p => match img p with
                          | Some v => Some (sampled_feature band geometries p v)
                          | None => None
                          end) l)
   + length (List.filter (no_data img) l) = length l)%nat.
Proof.
  induction l as [|p l IH]; [reflexivity|].
  cbn. unfold no_data at 1. destruct (img p); cbn in *; lia.
Qed.

Lemma drawn_in_region (region : list Feature) (scale : Z) (numPixels : nat)
    (draws : Z -> list Pixel) (p : Pixel) :
  In p (drawn region scale numPixels draws) ->
  covers (Collection_geometry region) p = true /\ In p (draws scale).
Proof.
  unfold drawn. intros Hin.
  apply list_elem_of_In, elem_of_take in Hin as (i & Hi & _).
  apply list_elem_of_lookup_2, list_elem_of_In, filter_In in Hi.
  tauto.
Qed.

(** C9. The point sampler returns at most [numPixels] points.  Each is a
    point at a drawn location inside the region and carries, as "NDVI",
    the raster value at that location; no returned point lies on a no-data
    pixel, while every drawn location on a defined pixel is returned.  The
    number returned is the number drawn minus the number of draws that
    landed on no-data, so it can be smaller than [numPixels], and it is
    the length of the returned collection. *)
Theorem point_sampler_spec (img : Image) (region : list Feature) (scale : Z)
    (numPixels : nat) (draws : Z -> list Pixel) :
  let pts := point_sampler img region scale numPixels draws in
  let locs := drawn region scale numPixels draws in
  (length pts <= numPixels)%nat
  /\ (forall f : Feature, In f pts ->
        exists (p : Pixel) (v : Q),
          geometry f = [p] /\ get f "NDVI" = Some (Num v) /\ img p = Some v
          /\ covers (Collection_geometry region) p = true /\ In p locs)
  /\ (forall (f : Feature) (p : Pixel), In f pts -> img p = None -> geometry f <> [p])
  /\ (forall (p : Pixel) (v : Q), In p locs -> img p = Some v ->
        In (sampled_feature "NDVI" true p v) pts)
  /\ (length pts + length (List.filter (no_data img) locs) = length locs)%nat
  /\ (length locs <= numPixels)%nat.
Proof.
  intros pts locs.
  assert (Hlocs : (length locs <= numPixels)%nat).
  { unfold locs, drawn. apply firstn_le_length. }
  assert (Hcount : (length pts + length (List.filter (no_data img) locs)
                    = length locs)%nat).
  { unfold pts, point_sampler. rewrite sample_as_omap. apply sampled_count. }
  assert (Hshape : forall f : Feature, In f pts ->
            exists (p : Pixel) (v : Q),
              f = sampled_feature "NDVI" true p v /\ img p = Some v /\ In p locs).
  { intros f Hf. unfold pts, point_sampler in Hf. rewrite sample_as_omap in Hf.
    apply list_elem_of_In, list_elem_of_omap in Hf as (p & Hp & Hsome).
    destruct (img p) as [v|] eqn:Ev; [|discriminate Hsome].
    exists p, v. injection Hsome as <-.
    split; [reflexivity|]. split; [exact Ev|]. apply list_elem_of_In, Hp. }
  split; [lia|]. split; [|split; [|split; [|split]]]; try assumption.
  - intros f Hf. destruct (Hshape f Hf) as (p & v & -> & Hv & Hp).
    exists p, v. repeat split; try assumption.
    exact (proj1 (drawn_in_region _ _ _ _ _ Hp)).
  - intros f p Hf Hnone Hgeo.
    destruct (Hshape f Hf) as (p' & v & -> & Hv & _).
    simpl in Hgeo. injection Hgeo as ->. congruence.
  - intros p v Hp Hv. unfold pts, point_sampler. rewrite sample_as_omap.
    apply list_elem_of_In, list_elem_of_omap. exists p.
    split; [apply list_elem_of_In, Hp|]. rewrite Hv. reflexivity.
Qed.

(** Every sampled point carries a numeric NDVI, so labelling a sample
    never fails. *)
Lemma map_collection_returns {A B : Type} (f : A -> Outcome B) (g : A -> B)
    (coll : list A) :
  (forall x, In x coll -> f x = Returned (g x)) ->
  map_collection f coll = Returned (map g coll).
Proof.
  induction coll as [|x rest IH]; intros Hf; [reflexivity|].
  simpl. rewrite (Hf x) by (left; reflexivity). simpl.
  rewrite IH by (intros y Hy; apply Hf; right; exact Hy). reflexivity.
Qed.

Lemma labelling_returns (img : Image) (region : list Feature) (scale : Z)
    (numPixels : nat) (draws : Z -> list Pixel) :
  map_collection classify_point (point_sampler img region scale numPixels draws)
  = Returned (map labelled_point (point_sampler img region scale numPixels draws)).
Proof.
  apply map_collection_returns. intros f Hf.
  unfold point_sampler in Hf. rewrite sample_as_omap in Hf.
  apply list_elem_of_In, list_elem_of_omap in Hf as (p & _ & Hsome).
  destruct (img p) as [v|]; [|discriminate Hsome].
  injection Hsome as <-. reflexivity.
Qed.

(** The compositor fails on an empty scene set and returns the clipped
    pixel-wise median on any other. *)
Lemma compositor_empty (region : list Feature) :
  compositor [] region = Raised EmptyCompositeError.
Proof. reflexivity. Qed.

Lemma compositor_returns (scenes : list Scene) (region : list Feature) :
  scenes <> [] -> compositor scenes region = Returned (composite_raster scenes region).
Proof.
  destruct scenes as [|s rest]; [congruence|]. reflexivity.
Qed.

Lemma compositor_inv (scenes : list Scene) (region : list Feature) (img : Image) :
  compositor scenes region = Returned img ->
  scenes <> [] /\ img = composite_raster scenes region.
Proof.
  destruct scenes as [|s rest]; [discriminate|].
  intros Hr. split; [discriminate|].
  rewrite compositor_returns in Hr by discriminate. injection Hr as <-. reflexivity.
Qed.

Lemma compositor_raises (scenes : list Scene) (region : list Feature) (e : Failure) :
  compositor scenes region = Raised e -> scenes = [] /\ e = EmptyCompositeError.
Proof.
  destruct scenes as [|s rest]; [|discriminate].
  intros Hr. split; [reflexivity|]. rewrite compositor_empty in Hr. congruence.
Qed.

(** The pipeline fails exactly on an empty scene set, with the
    compositor's failure; otherwise it returns. *)
Lemma pipeline_returns (states : list Feature) (name : string) (S2_SR : list Scene)
    (start end_ : Z) (max_cloud : Q) (scale : Z) (numPixels : nat)
    (draws : Z -> list Pixel) :
  let region := region_filter states name in
  let scenes := scene_collector S2_SR region start end_ max_cloud in
  let raster := composite_raster scenes region in
  scenes <> [] ->
  pipeline states name S2_SR start end_ max_cloud scale numPixels draws
  = Returned (mkResults region scenes raster
                (map labelled_point (point_sampler raster region scale numPixels draws))).
Proof.
  intros region scenes raster Hne. unfold pipeline.
  fold region. fold scenes. rewrite (compositor_returns scenes region Hne).
  simpl. fold raster. rewrite labelling_returns. reflexivity.
Qed.

Lemma pipeline_empty (states : list Feature) (name : string) (S2_SR : list Scene)
    (start end_ : Z) (max_cloud : Q) (scale : Z) (numPixels : nat)
    (draws : Z -> list Pixel) :
  scene_collector S2_SR (region_filter states name) start end_ max_cloud = [] ->
  pipeline states name S2_SR start end_ max_cloud scale numPixels draws
  = Raised EmptyCompositeError.
Proof.
  intros Hempty. unfold pipeline. rewrite Hempty. reflexivity.
Qed.

(** ** Region filter *)

Lemma Value_eqb_Str (v : Value) (name : string) :
  Value_eqb v (Str name) = true <-> v = Str name.
Proof.
  destruct v as [q|s]; simpl.
  - split; discriminate.
  - rewrite String.eqb_eq. split; congruence.
Qed.

Lemma region_filter_In (states : list Feature) (name : string) (f : Feature) :
  In f (region_filter states name)
  <-> In f states /\ get f "ADM1_NAME" = Some (Str name).
Proof.
  unfold region_filter, filter. rewrite filter_In. simpl.
  destruct (get f "ADM1_NAME") as [v|].
  - rewrite Value_eqb_Str. split; intros [Hin Hv]; (split; [exact Hin|]); congruence.
  - split; intros [_ Hv]; discriminate Hv.
Qed.

(** C7, as stated, fails: with no match the region filter returns an empty
    collection, with two matches it returns both, and the pipeline then
    runs on the two features; in neither case is RegionNotFound raised.
    The match is case-sensitive. *)
Lemma region_filter_never_fails :
  region_filter two_states "Nonexistent" = []
  /\ pipeline two_states "Nonexistent" [] 0 1 20 1000 300 (fun _ => [])
     <> Raised RegionNotFound
  /\ length (region_filter ambiguous_states "Karnataka") = 2%nat
  /\ pipeline ambiguous_states "Karnataka" [] 0 1 20 1000 300 (fun _ => [])
     <> Raised RegionNotFound
  /\ region_filter two_states "karnataka" = []
  /\ match pipeline ambiguous_states "Karnataka" [scene_at (Date 2023 6 1) 5]
             (Date 2023 1 1) (Date 2023 12 31) 20 1000 300 (fun _ => []) with
     | Returned r => length (region r) = 2%nat
     | Raised _ => False
     end.
Proof.
  repeat split; try reflexivity; discriminate.
Qed.

(** C7, amended. For every boundary dataset and region name the region
    filter returns the features of the dataset whose name attribute equals
    the input under case-sensitive exact match, all of them and in dataset
    order: none when nothing matches (so for "Nonexistent") and several
    when several match.  It raises no RegionNotFound: the pipeline never
    ends in that failure, and whenever it returns it has run on the
    collection the filter returned. *)
Theorem region_filter_spec (states : list Feature) (name : string) :
  (forall f : Feature,
      In f (region_filter states name)
      <-> In f states /\ get f "ADM1_NAME" = Some (Str name))
  /\ region_filter states name
     = List.filter (fun f => match get f "ADM1_NAME" with
                             | Some (Str s) => String.eqb s name
                             | _ => false
                             end) states
  /\ ((forall f : Feature, In f states -> get f "ADM1_NAME" <> Some (Str name)) ->
      region_filter states name = [])
  /\ (forall (S2_SR : list Scene) (start end_ : Z) (max_cloud : Q) (scale : Z)
             (numPixels : nat) (draws : Z -> list Pixel),
        pipeline states name S2_SR start end_ max_cloud scale numPixels draws
        <> Raised RegionNotFound
        /\ (forall r : Results,
              pipeline states name S2_SR start end_ max_cloud scale numPixels draws
              = Returned r ->
              region r = region_filter states name)
        /\ (scene_collector S2_SR (region_filter states name) start end_ max_cloud
            <> [] ->
            exists r : Results,
              pipeline states name S2_SR start end_ max_cloud scale numPixels draws
              = Returned r
              /\ region r = region_filter states name)).
Proof.
  split; [|split; [|split]].
  - intros f. apply region_filter_In.
  - unfold region_filter, filter. apply filter_ext. intros f. simpl.
    destruct (get f "ADM1_NAME") as [[q|s]|]; reflexivity.
  - intros Hnone.
    destruct (region_filter states name) as [|f rest] eqn:E; [reflexivity|].
    exfalso. assert (Hin : In f (region_filter states name)) by (rewrite E; left; reflexivity).
    apply region_filter_In in Hin as [Hin Hname]. exact (Hnone f Hin Hname).
  - intros S2_SR start end_ max_cloud scale numPixels draws.
    destruct (scene_collector S2_SR (region_filter states name) start end_ max_cloud)
      as [|s rest] eqn:E.
    + rewrite (pipeline_empty _ _ _ _ _ _ _ _ _ E).
      split; [discriminate|]. split; [discriminate | congruence].
    + assert (Hne : scene_collector S2_SR (region_filter states name) start end_
                      max_cloud <> []) by (rewrite E; discriminate).
      rewrite (pipeline_returns _ _ _ _ _ _ _ _ _ Hne).
      split; [discriminate|]. split.
      * intros r Hr. injection Hr as <-. reflexivity.
      * intros _. eexists. split; reflexivity.
Qed.

(** ** Scene collector *)

Lemma covers_In (g : Geometry) (p : Pixel) : covers g p = true <-> In p g.
Proof.
  unfold covers. rewrite bool_decide_eq_true. apply list_elem_of_In.
Qed.

Lemma Collection_geometry_In (fc : list Feature) (p : Pixel) :
  In p (Collection_geometry fc) <-> exists g : Feature, In g fc /\ In p (geometry g).
Proof.
  unfold Collection_geometry. rewrite in_concat. split.
  - intros (l & Hl & Hp). apply in_map_iff in Hl as (g & <- & Hg). eauto.
  - intros (g & Hg & Hp). exists (geometry g). split; [|exact Hp].
    apply in_map. exact Hg.
Qed.

Lemma intersects_in_bounds (s : Scene) (region : list Feature) :
  intersects (footprint s) (Collection_geometry region) = true <-> in_bounds s region.
Proof.
  unfold intersects, in_bounds. rewrite existsb_exists.
  split; intros (p & Hp & Hc); exists p; (split; [exact Hp|]).
  - apply Collection_geometry_In, covers_In, Hc.
  - apply covers_In, Collection_geometry_In, Hc.
Qed.

Lemma cloud_filter_lt (s : Scene) (max_cloud : Q) :
  Filter_apply (Filter_lt "CLOUDY_PIXEL_PERCENTAGE" max_cloud) s = true
  <-> exists c : Q,
        get s "CLOUDY_PIXEL_PERCENTAGE" = Some (Num c) /\ (c < max_cloud)%Q.
Proof.
  simpl. destruct (get s "CLOUDY_PIXEL_PERCENTAGE") as [[c|t]|].
  - rewrite Qltb_lt. split.
    + intros Hc. exists c. split; [reflexivity | exact Hc].
    + intros (c' & Heq & Hc). injection Heq as ->. exact Hc.
  - split; [discriminate | intros (c & Heq & _); discriminate Heq].
  - split; [discriminate | intros (c & Heq & _); discriminate Heq].
Qed.

Lemma filter_filter {A : Type} (f g : A -> bool) (l : list A) :
  List.filter f (List.filter g l) = List.filter (fun x => g x && f x) l.
Proof.
  induction l as [|x l IH]; [reflexivity|].
  simpl. destruct (g x); simpl; [destruct (f x)|]; rewrite IH; reflexivity.
Qed.

Lemma scene_collector_as_filter (S2_SR : list Scene) (region : list Feature)
    (start end_ : Z) (max_cloud : Q) :
  scene_collector S2_SR region start end_ max_cloud
  = List.filter
      (fun s => intersects (footprint s) (Collection_geometry region)
                && ((start <=? time_start s)%Z && (time_start s <? end_)%Z
                    && Filter_apply (Filter_lt "CLOUDY_PIXEL_PERCENTAGE" max_cloud) s))
      S2_SR.
Proof.
  unfold scene_collector, filter, filterDate, filterBounds.
  rewrite !filter_filter. reflexivity.
Qed.

Lemma scene_collector_In (S2_SR : list Scene) (region : list Feature)
    (start end_ : Z) (max_cloud : Q) (s : Scene) :
  In s (scene_collector S2_SR region start end_ max_cloud)
  <-> In s S2_SR
      /\ in_bounds s region
      /\ (start <= time_start s < end_)%Z
      /\ exists c : Q,
           get s "CLOUDY_PIXEL_PERCENTAGE" = Some (Num c) /\ (c < max_cloud)%Q.
Proof.
  rewrite scene_collector_as_filter, filter_In, !andb_true_iff.
  rewrite intersects_in_bounds, cloud_filter_lt, Z.leb_le, Z.ltb_lt.
  tauto.
Qed.

(** C8. The scene collector returns exactly the scenes of the source whose
    footprint intersects the region, whose acquisition time lies in
    [[start, end)] and whose cloud cover is strictly below the threshold;
    a scene missing any of the three is left out.  The result is the
    source filtered by the conjunction, in source order; the source itself
    is only read. *)
Theorem scene_collector_spec (S2_SR : list Scene) (region : list Feature)
    (start end_ : Z) (max_cloud : Q) :
  (forall s : Scene,
      In s (scene_collector S2_SR region start end_ max_cloud)
      <-> In s S2_SR
          /\ in_bounds s region
          /\ (start <= time_start s < end_)%Z
          /\ exists c : Q,
               get s "CLOUDY_PIXEL_PERCENTAGE" = Some (Num c) /\ (c < max_cloud)%Q)
  /\ scene_collector S2_SR region start end_ max_cloud
     = List.filter
         (fun s => intersects (footprint s) (Collection_geometry region)
                   && ((start <=? time_start s)%Z && (time_start s <? end_)%Z
                       && Filter_apply (Filter_lt "CLOUDY_PIXEL_PERCENTAGE" max_cloud) s))
         S2_SR.
Proof.
  split.
  - intros s. apply scene_collector_In.
  - apply scene_collector_as_filter.
Qed.

(** The script's collection: scenes over Karnataka acquired from
    2023-01-01 00:00 UTC up to, but excluding, 2023-12-31 00:00 UTC, with
    less than 20 percent cloud. *)
Lemma collection_spec (S2_SR : list Scene) (states : list Feature) (s : Scene) :
  In s (collection S2_SR states)
  <-> In s S2_SR
      /\ in_bounds s (karnataka states)
      /\ (1672531200000 <= time_start s < 1703980800000)%Z
      /\ exists c : Q,
           get s "CLOUDY_PIXEL_PERCENTAGE" = Some (Num c) /\ (c < 20)%Q.
Proof.
  unfold collection.
  apply (scene_collector_In S2_SR (karnataka states)
           (Date 2023 1 1) (Date 2023 12 31) 20).
Qed.

(** The bounds are as stated: the first instant of 2023-01-01 is kept,
    the first instant of 2023-12-31 is not, and a cloud cover of exactly
    20 is not. *)
Example collection_boundaries :
  collection [scene_at (Date 2023 1 1) 5; scene_at (Date 2023 12 31) 5;
              scene_at (Date 2023 6 1) 20; scene_at (Date 2023 6 1) 19.9;
              scene_at (Date 2022 12 31) 5]
    two_states
  = [scene_at (Date 2023 1 1) 5; scene_at (Date 2023 6 1) 19.9].
Proof. reflexivity. Qed.

(** ** Index compositor *)

Lemma composite_raster_at (scenes : list Scene) (region : list Feature) (p : Pixel) :
  composite_raster scenes region p
  = if covers (Collection_geometry region) p
    then Reducer_median (defined_values (scene_indices scenes) p)
    else None.
Proof. reflexivity. Qed.

Lemma scene_indices_app (l1 l2 : list Scene) :
  scene_indices (l1 ++ l2) = scene_indices l1 ++ scene_indices l2.
Proof. unfold scene_indices. rewrite !map_app. reflexivity. Qed.

Lemma defined_values_app (l1 l2 : list Image) (p : Pixel) :
  defined_values (l1 ++ l2) p = defined_values l1 p ++ defined_values l2 p.
Proof. apply omap_app. Qed.

Lemma defined_values_masked (imgs : list Image) (p : Pixel) :
  (forall img, In img imgs -> img p = None) -> defined_values imgs p = [].
Proof.
  induction imgs as [|img imgs IH]; intros Hm; [reflexivity|].
  unfold defined_values in *. cbn.
  rewrite (Hm img) by (left; reflexivity).
  apply IH. intros img' Hin. apply Hm. right. exact Hin.
Qed.

Lemma defined_values_single (scene : Scene) (p : Pixel) :
  defined_values (scene_indices [scene]) p
  = match NDVI (add_ndvi scene) p with
    | Some v => [v]
    | None => []
    end.
Proof.
  unfold defined_values, scene_indices. cbn.
  destruct (normalizedDifference (B8 scene) (B4 scene) p); reflexivity.
Qed.

Lemma defined_values_insert (before after : list Scene) (scene : Scene) (p : Pixel) :
  defined_values (scene_indices (before ++ scene :: after)) p
  = defined_values (scene_indices before) p
    ++ defined_values (scene_indices [scene]) p
    ++ defined_values (scene_indices after) p.
Proof.
  change (scene :: after) with ([scene] ++ after).
  rewrite !scene_indices_app, !defined_values_app. reflexivity.
Qed.

(** A scene that is no-data at a pixel contributes nothing to the
    composite there. *)
Lemma masked_scene_excluded (before after : list Scene) (scene : Scene)
    (region : list Feature) (p : Pixel) :
  NDVI (add_ndvi scene) p = None ->
  composite_raster (before ++ scene :: after) region p
  = composite_raster (before ++ after) region p.
Proof.
  intros Hm. rewrite !composite_raster_at.
  rewrite defined_values_insert, defined_values_single, Hm.
  rewrite scene_indices_app, defined_values_app. reflexivity.
Qed.

(** C5. Where the two bands of a scene sum to zero the scene's index is
    no-data: [add_ndvi] is a total function and yields a masked pixel, no
    error.  The pixel contributes no value to the median: the compositor
    returns on a scene set containing the scene, and the composite at that
    location is the median of the defined values of the other scenes, the
    same as the composite computed without the scene. *)
Theorem zero_sum_is_no_data (scene : Scene) (p : Pixel) (a b : Q) :
  B8 scene p = Some a -> B4 scene p = Some b -> (a + b == 0)%Q ->
  NDVI (add_ndvi scene) p = None
  /\ defined_values (scene_indices [scene]) p = []
  /\ (forall (before after : list Scene) (region : list Feature),
        defined_values (scene_indices (before ++ scene :: after)) p
        = defined_values (scene_indices (before ++ after)) p
        /\ exists img : Image,
             compositor (before ++ scene :: after) region = Returned img
             /\ img p
                = (if covers (Collection_geometry region) p
                   then Reducer_median
                          (defined_values (scene_indices (before ++ after)) p)
                   else None)
             /\ (forall img' : Image,
                   compositor (before ++ after) region = Returned img' ->
                   img p = img' p)).
Proof.
  intros Ha Hb Hsum.
  assert (Hm : NDVI (add_ndvi scene) p = None).
  { simpl. unfold normalizedDifference. rewrite Ha, Hb.
    destruct (negative a || negative b); [reflexivity|].
    apply Qeq_bool_iff in Hsum. rewrite Hsum. reflexivity. }
  split; [exact Hm|]. split.
  - rewrite defined_values_single, Hm. reflexivity.
  - intros before after region. split.
    + rewrite defined_values_insert, defined_values_single, Hm.
      rewrite scene_indices_app, defined_values_app. reflexivity.
    + exists (composite_raster (before ++ scene :: after) region).
      split; [apply compositor_returns; destruct before; discriminate|].
      rewrite (masked_scene_excluded before after scene region p Hm).
      split; [apply composite_raster_at|].
      intros img' Hr. apply compositor_inv in Hr as [_ ->]. reflexivity.
Qed.

Lemma zero_sum_is_no_data_witness :
  NDVI (add_ndvi (uniform_scene [(0, 0)%Z] 0 0)) (0, 0)%Z = None
  /\ exists img : Image,
       compositor [uniform_scene [(0, 0)%Z] 0.8 0.2; uniform_scene [(0, 0)%Z] 0 0]
         one_cell_region = Returned img
       /\ img (0, 0)%Z = Some ((0.8 - 0.2) / (0.8 + 0.2))%Q.
Proof.
  assert (Hsum : (0 + 0 == 0)%Q) by reflexivity.
  destruct (zero_sum_is_no_data (uniform_scene [(0, 0)%Z] 0 0) (0, 0)%Z 0 0
              eq_refl eq_refl Hsum) as (Hm & _ & Hex).
  split; [exact Hm|].
  destruct (Hex [uniform_scene [(0, 0)%Z] 0.8 0.2] [] one_cell_region)
    as (_ & img & Hr & Hv & _).
  exists img. split; [exact Hr | exact Hv].
Defined.

(** *** The median reducer *)

Section Median.

Local Open Scope Q_scope.

Lemma Qinsert_perm (x : Q) (l : list Q) : Permutation (Qinsert x l) (x :: l).
Proof.
  induction l as [|y l IH]; simpl; [reflexivity|].
  destruct (Qle_bool x y); [reflexivity|].
  rewrite IH. apply perm_swap.
Qed.

Lemma Qsort_perm (l : list Q) : Permutation (Qsort l) l.
Proof.
  induction l as [|x l IH]; simpl; [reflexivity|].
  rewrite Qinsert_perm, IH. reflexivity.
Qed.

Lemma Qinsert_sorted (x : Q) (l : list Q) :
  StronglySorted Qle l -> StronglySorted Qle (Qinsert x l).
Proof.
  induction 1 as [|y l Hs IH Hall]; simpl.
  - constructor; constructor.
  - destruct (Qle_bool x y) eqn:E.
    + apply Qle_bool_iff in E. constructor; [constructor; assumption|].
      constructor; [exact E|].
      eapply List.Forall_impl; [|exact Hall]. intros z Hz. simpl in Hz.
      apply Qle_trans with y; assumption.
    + apply Qle_bool_false in E. constructor; [exact IH|].
      rewrite Qinsert_perm. constructor; [apply Qlt_le_weak, E | exact Hall].
Qed.

Lemma Qsort_sorted (l : list Q) : StronglySorted Qle (Qsort l).
Proof.
  induction l as [|x l IH]; simpl; [constructor | apply Qinsert_sorted, IH].
Qed.

Lemma sorted_middle (l1 l2 : list Q) (x : Q) :
  StronglySorted Qle (l1 ++ x :: l2) ->
  Forall (fun y => y <= x) l1 /\ Forall (fun y => x <= y) l2.
Proof.
  induction l1 as [|y l1 IH]; simpl; intros Hs;
    apply StronglySorted_inv in Hs as [Hs Hall].
  - split; [constructor | exact Hall].
  - destruct (IH Hs) as [H1 H2]. split; [|exact H2].
    constructor; [|exact H1].
    rewrite List.Forall_forall in Hall. apply Hall, in_elt.
Qed.

Lemma split_at (s : list Q) (k : nat) :
  (k < length s)%nat -> s = take k s ++ nth k s 0 :: drop (S k) s.
Proof.
  revert k. induction s as [|x s IH]; intros k Hk; simpl in Hk; [lia|].
  destruct k as [|k]; simpl; [reflexivity|].
  f_equal. apply IH. lia.
Qed.

Lemma count_le_app (l1 l2 : list Q) (m : Q) :
  count_le (l1 ++ l2) m = (count_le l1 m + count_le l2 m)%nat.
Proof. unfold count_le. rewrite List.filter_app, List.length_app. reflexivity. Qed.

Lemma count_ge_app (l1 l2 : list Q) (m : Q) :
  count_ge (l1 ++ l2) m = (count_ge l1 m + count_ge l2 m)%nat.
Proof. unfold count_ge. rewrite List.filter_app, List.length_app. reflexivity. Qed.

Lemma count_le_all (l : list Q) (m : Q) :
  Forall (fun y => y <= m) l -> count_le l m = length l.
Proof.
  unfold count_le. induction 1 as [|y l Hy Hall IH]; simpl; [reflexivity|].
  apply Qle_bool_iff in Hy. rewrite Hy. simpl. f_equal. exact IH.
Qed.

Lemma count_ge_all (l : list Q) (m : Q) :
  Forall (fun y => m <= y) l -> count_ge l m = length l.
Proof.
  unfold count_ge. induction 1 as [|y l Hy Hall IH]; simpl; [reflexivity|].
  apply Qle_bool_iff in Hy. rewrite Hy. simpl. f_equal. exact IH.
Qed.

Lemma count_le_perm (l l' : list Q) (m : Q) :
  Permutation l l' -> count_le l m = count_le l' m.
Proof.
  unfold count_le. induction 1 as [|x l l' Hp IH|x y l|l l' l'' Hp1 IH1 Hp2 IH2];
    simpl; try reflexivity.
  - destruct (Qle_bool x m); simpl; congruence.
  - destruct (Qle_bool x m), (Qle_bool y m); reflexivity.
  - congruence.
Qed.

Lemma count_ge_perm (l l' : list Q) (m : Q) :
  Permutation l l' -> count_ge l m = count_ge l' m.
Proof.
  unfold count_ge. induction 1 as [|x l l' Hp IH|x y l|l l' l'' Hp1 IH1 Hp2 IH2];
    simpl; try reflexivity.
  - destruct (Qle_bool m x); simpl; congruence.
  - destruct (Qle_bool m x), (Qle_bool m y); reflexivity.
  - congruence.
Qed.

(** In a sorted list, the element of rank [k] has at least [k + 1]
    elements below or equal to it and at least [length s - k] above or
    equal to it. *)
Lemma sorted_rank (s : list Q) (k : nat) (m : Q) :
  StronglySorted Qle s -> (k < length s)%nat ->
  (nth k s 0 <= m -> (k + 1 <= count_le s m)%nat)
  /\ (m <= nth k s 0 -> (length s - k <= count_ge s m)%nat).
Proof.
  intros Hs Hk.
  pose proof (split_at s k Hk) as Hsplit.
  set (x := nth k s 0) in *.
  rewrite Hsplit in Hs. apply sorted_middle in Hs as [Hlow Hhigh].
  assert (Hlen1 : length (take k s) = k) by (rewrite length_take; lia).
  assert (Hlen2 : length (drop (S k) s) = (length s - S k)%nat) by apply length_drop.
  split; intros Hm.
  - rewrite Hsplit, count_le_app.
    rewrite (count_le_all (take k s) m).
    + change (x :: drop (S k) s) with ([x] ++ drop (S k) s).
      rewrite count_le_app. unfold count_le at 1. simpl.
      apply Qle_bool_iff in Hm. rewrite Hm. simpl. lia.
    + eapply List.Forall_impl; [|exact Hlow]. intros y Hy. simpl in Hy.
      apply Qle_trans with x; assumption.
  - rewrite Hsplit at 2. rewrite count_ge_app.
    change (x :: drop (S k) s) with ([x] ++ drop (S k) s).
    rewrite count_ge_app. unfold count_ge at 2. simpl.
    pose proof Hm as Hm'. apply Qle_bool_iff in Hm'. rewrite Hm'. simpl.
    rewrite (count_ge_all (drop (S k) s) m).
    + lia.
    + eapply List.Forall_impl; [|exact Hhigh]. intros y Hy. simpl in Hy.
      apply Qle_trans with x; assumption.
Qed.

Lemma sorted_nth_le (s : list Q) (i j : nat) :
  StronglySorted Qle s -> (i <= j)%nat -> (j < length s)%nat ->
  nth i s 0 <= nth j s 0.
Proof.
  intros Hs. revert i j.
  induction Hs as [|x s Hs IH Hall]; intros i j Hij Hj; simpl in Hj; [lia|].
  destruct i as [|i], j as [|j]; simpl; try lia.
  - apply Qle_refl.
  - rewrite List.Forall_forall in Hall. apply Hall, nth_In. lia.
  - apply IH; lia.
Qed.

Lemma half_even (n : nat) : Nat.even n = true -> n = (2 * (n / 2))%nat.
Proof.
  intros He. apply Nat.even_spec in He as [j ->].
  rewrite (Nat.mul_comm 2 j), Nat.div_mul by discriminate. lia.
Qed.

Lemma half_odd (n : nat) : Nat.even n = false -> n = (2 * (n / 2) + 1)%nat.
Proof.
  intros He.
  assert (Ho : Nat.odd n = true) by (unfold Nat.odd; rewrite He; reflexivity).
  apply Nat.odd_spec in Ho as [j ->].
  rewrite (Nat.mul_comm 2 j), Nat.div_add_l by discriminate. simpl. lia.
Qed.

(** The reducer is undefined exactly on the empty list. *)
Lemma Reducer_median_None (l : list Q) : Reducer_median l = None <-> l = [].
Proof.
  unfold Reducer_median.
  pose proof (Permutation_length (Qsort_perm l)) as Hlen.
  destruct l as [|x l]; [split; reflexivity|].
  change (length (x :: l)) with (S (length l)) in Hlen.
  destruct (length (Qsort (x :: l))) as [|n]; [discriminate Hlen|].
  destruct (Nat.even (S n)); split; discriminate.
Qed.

Lemma Reducer_median_nonempty (l : list Q) :
  l <> [] ->
  Reducer_median l
  = if Nat.even (length l)
    then Some ((nth (length l / 2 - 1) (Qsort l) 0 + nth (length l / 2) (Qsort l) 0) / 2)
    else Some (nth (length l / 2) (Qsort l) 0).
Proof.
  intros Hne. unfold Reducer_median.
  rewrite (Permutation_length (Qsort_perm l)).
  destruct l as [|x l]; [congruence|]. reflexivity.
Qed.

(** What the reducer returns is a median of its input. *)
Lemma Reducer_median_is_median (l : list Q) (m : Q) :
  Reducer_median l = Some m -> is_median l m.
Proof.
  intros Hm.
  assert (Hne : l <> []).
  { intros ->. discriminate Hm. }
  rewrite (Reducer_median_nonempty l Hne) in Hm.
  assert (Hpos : (0 < length l)%nat).
  { destruct l; [congruence | simpl; lia]. }
  unfold is_median.
  pose proof (Qsort_perm l) as Hperm.
  pose proof (Qsort_sorted l) as Hs.
  rewrite (count_le_perm l (Qsort l) m), (count_ge_perm l (Qsort l) m)
    by (symmetry; exact Hperm).
  pose proof (Permutation_length Hperm) as En.
  set (s := Qsort l) in *. set (n := length l) in *.
  set (h := (n / 2)%nat) in *.
  destruct (Nat.even n) eqn:Ev; apply (inj Some) in Hm; rewrite <- Hm; clear Hm.
  - pose proof (half_even n Ev) as Hn. fold h in Hn.
    set (a := nth (h - 1) s 0). set (b := nth h s 0).
    assert (Hab : a <= b) by (apply sorted_nth_le; [exact Hs | lia | lia]).
    assert (Hlo : a <= (a + b) / 2) by (apply Qle_shift_div_l; lra).
    assert (Hhi : (a + b) / 2 <= b) by (apply Qle_shift_div_r; lra).
    destruct (sorted_rank s (h - 1) ((a + b) / 2) Hs ltac:(lia)) as [Hle _].
    destruct (sorted_rank s h ((a + b) / 2) Hs ltac:(lia)) as [_ Hge].
    specialize (Hle Hlo). specialize (Hge Hhi). lia.
  - pose proof (half_odd n Ev) as Hn. fold h in Hn.
    set (x := nth h s 0).
    destruct (sorted_rank s h x Hs ltac:(lia)) as [Hle Hge].
    specialize (Hle (Qle_refl x)). specialize (Hge (Qle_refl x)). lia.
Qed.

End Median.

(** *** The composite *)

Lemma Qle_bool_eq (x y c : Q) : (x == y)%Q -> Qle_bool x c = Qle_bool y c.
Proof. intros Heq. rewrite Heq. reflexivity. Qed.

(** Equal index values get the same class. *)
Lemma class_label_eq (x y : Q) : (x == y)%Q -> class_label x = class_label y.
Proof.
  intros Heq. rewrite !class_label_cases.
  rewrite !(Qle_bool_eq x y _ Heq). reflexivity.
Qed.

Lemma median_of_two (v1 v2 : Q) :
  (v1 <= v2)%Q -> Reducer_median [v1; v2] = Some ((v1 + v2) / 2)%Q.
Proof.
  intros Hle. unfold Reducer_median. simpl.
  apply Qle_bool_iff in Hle. rewrite Hle. reflexivity.
Qed.

(** C4. The composite is the median of the defined values: on a non-empty
    scene set the compositor returns a raster whose value, at every pixel
    of the region, is the median reducer applied to the defined per-scene
    index values at that pixel, a value with at least half of them on
    either side; a pixel with no defined value in any scene is no-data.
    Outside the region the raster is clipped to no-data.  Two scenes with
    index values 0.5 and 0.7 at a pixel give a composite of 0.6 there, in
    the Moderate class. *)
Theorem composite_is_median (scenes : list Scene) (region : list Feature) (p : Pixel) :
  let values := defined_values (scene_indices scenes) p in
  (scenes <> [] -> exists img : Image, compositor scenes region = Returned img)
  /\ (forall img : Image,
        compositor scenes region = Returned img ->
        (covers (Collection_geometry region) p = true ->
           img p = Reducer_median values
           /\ (forall m : Q, img p = Some m -> is_median values m)
           /\ (values = [] <-> img p = None)
           /\ (forall v1 v2 : Q,
                 values = [v1; v2] -> (v1 == 0.5)%Q -> (v2 == 0.7)%Q ->
                 exists m : Q,
                   img p = Some m /\ (m == 0.6)%Q
                   /\ class_label m = "Moderate"
                   /\ raster_classes img p = [Moderate]))
        /\ (covers (Collection_geometry region) p = false -> img p = None)).
Proof.
  intros values. split.
  { intros Hne. eexists. apply compositor_returns, Hne. }
  intros img Hr. apply compositor_inv in Hr as [_ ->].
  split; intros Hin; rewrite composite_raster_at, Hin; [|reflexivity].
  fold values. split; [reflexivity|]. split; [|split].
  - intros m Hm. apply Reducer_median_is_median, Hm.
  - symmetry. apply Reducer_median_None.
  - intros v1 v2 Hvals H1 H2. rewrite Hvals.
    assert (Hle : (v1 <= v2)%Q) by (rewrite H1, H2; unfold Qle; simpl; lia).
    assert (Hm : ((v1 + v2) / 2 == 0.6)%Q) by (rewrite H1, H2; reflexivity).
    exists ((v1 + v2) / 2)%Q.
    assert (Hc : composite_raster scenes region p = Some ((v1 + v2) / 2)%Q).
    { rewrite composite_raster_at, Hin. fold values. rewrite Hvals.
      apply median_of_two, Hle. }
    split; [apply median_of_two, Hle|]. split; [exact Hm|]. split.
    + rewrite (class_label_eq _ _ Hm). reflexivity.
    + rewrite (raster_classes_defined _ p _ Hc), raster_classes_cases.
      rewrite !(Qle_bool_eq _ _ _ Hm). reflexivity.
Qed.

(** Two scenes over one cell with index values 0.5 and 0.7 there. *)
Lemma composite_is_median_witness :
  exists (img : Image) (m : Q),
    compositor [uniform_scene [(0, 0)%Z] 0.75 0.25; uniform_scene [(0, 0)%Z] 0.85 0.15]
      one_cell_region = Returned img
    /\ img (0, 0)%Z = Some m
    /\ (m == 0.6)%Q
    /\ class_label m = "Moderate".
Proof.
  destruct (composite_is_median
              [uniform_scene [(0, 0)%Z] 0.75 0.25; uniform_scene [(0, 0)%Z] 0.85 0.15]
              one_cell_region (0, 0)%Z) as [Hret Hval].
  destruct (Hret ltac:(discriminate)) as [img Hr].
  destruct (Hval img Hr) as [Hin _].
  destruct (Hin eq_refl) as (_ & _ & _ & Hex).
  destruct (Hex _ _ eq_refl ltac:(reflexivity) ltac:(reflexivity))
    as (m & Hm & H06 & Hl & _).
  exists img, m. repeat split; assumption.
Defined.

(** *** Empty scene sets *)

Lemma composite_raster_all_masked (scenes : list Scene) (region : list Feature) (p : Pixel) :
  (forall s : Scene, In s scenes -> NDVI (add_ndvi s) p = None) ->
  composite_raster scenes region p = None.
Proof.
  intros Hm. rewrite composite_raster_at.
  replace (defined_values (scene_indices scenes) p) with (@nil Q).
  - destruct (covers (Collection_geometry region) p); reflexivity.
  - symmetry. apply defined_values_masked. intros img Himg.
    unfold scene_indices in Himg.
    apply in_map_iff in Himg as (ns & <- & Hns).
    apply in_map_iff in Hns as (s & <- & Hs). apply Hm, Hs.
Qed.

(** C6. If the filtered scene set handed to the index compositor is empty,
    the compositor fails with EmptyCompositeError and so does the pipeline:
    no raster is returned.  A non-empty scene set whose pixels are all
    no-data is a different outcome: there the compositor returns a raster,
    no-data at every pixel. *)
Theorem empty_scene_set_raises (states : list Feature) (name : string)
    (S2_SR : list Scene) (start end_ : Z) (max_cloud : Q) (scale : Z)
    (numPixels : nat) (draws : Z -> list Pixel) :
  scene_collector S2_SR (region_filter states name) start end_ max_cloud = [] ->
  compositor (scene_collector S2_SR (region_filter states name) start end_ max_cloud)
    (region_filter states name) = Raised EmptyCompositeError
  /\ pipeline states name S2_SR start end_ max_cloud scale numPixels draws
     = Raised EmptyCompositeError
  /\ (forall r : Results,
        pipeline states name S2_SR start end_ max_cloud scale numPixels draws
        <> Returned r)
  /\ (forall (scenes' : list Scene) (region' : list Feature),
        scenes' <> [] ->
        (forall (s : Scene) (p : Pixel), In s scenes' -> NDVI (add_ndvi s) p = None) ->
        exists img : Image,
          compositor scenes' region' = Returned img
          /\ (forall p : Pixel, img p = None)
          /\ compositor scenes' region'
             <> compositor
                  (scene_collector S2_SR (region_filter states name) start end_ max_cloud)
                  (region_filter states name)).
Proof.
  intros Hempty. rewrite Hempty.
  split; [apply compositor_empty|].
  split; [apply pipeline_empty, Hempty|].
  split; [rewrite (pipeline_empty _ _ _ _ _ _ _ _ _ Hempty); discriminate|].
  intros scenes' region' Hne Hm.
  exists (composite_raster scenes' region').
  rewrite (compositor_returns scenes' region' Hne).
  split; [reflexivity|]. split; [|discriminate].
  intros p. apply composite_raster_all_masked. intros s Hs. apply Hm, Hs.
Qed.

Lemma empty_scene_set_raises_witness :
  pipeline two_states "Karnataka" [] (Date 2023 1 1) (Date 2023 12 31) 20
    1000 300 (fun _ => [(0, 0)%Z]) = Raised EmptyCompositeError
  /\ exists img : Image,
       compositor [uniform_scene [(0, 0)%Z] 0 0] one_cell_region = Returned img
       /\ forall p : Pixel, img p = None.
Proof.
  destruct (empty_scene_set_raises two_states "Karnataka" [] (Date 2023 1 1)
              (Date 2023 12 31) 20 1000 300 (fun _ => [(0, 0)%Z]) eq_refl)
    as (_ & Hp & _ & Hdist).
  split; [exact Hp|].
  assert (Hmasked : forall (s : Scene) (p : Pixel),
            In s [uniform_scene [(0, 0)%Z] 0 0] -> NDVI (add_ndvi s) p = None).
  { intros s p [<-|[]]. simpl. unfold normalizedDifference. simpl.
    destruct (covers [(0, 0)%Z] p); reflexivity. }
  destruct (Hdist [uniform_scene [(0, 0)%Z] 0 0] one_cell_region
              ltac:(discriminate) Hmasked) as (img & Hr & Hn & _).
  exists img. split; assumption.
Defined.

(** ** The script at its constants *)

(** The script's values are the pipeline's results at region name
    "Karnataka", the year 2023, 20 percent cloud, scale 1000 and 300
    points. *)
Lemma app_results (states : list Feature) (S2_SR : list Scene)
    (draws : Z -> list Pixel) :
  (collection S2_SR states <> [] -> exists r : Results, app states S2_SR draws = Returned r)
  /\ (forall r : Results,
        app states S2_SR draws = Returned r ->
        region r = karnataka states
        /\ scenes r = collection S2_SR states
        /\ ndvi_image S2_SR states = Returned (raster r)
        /\ points S2_SR states draws = Returned (labelled r)).
Proof.
  unfold app, points, ndvi_image, collection, karnataka.
  destruct (scene_collector S2_SR (region_filter states "Karnataka")
              (Date 2023 1 1) (Date 2023 12 31) 20) as [|s rest] eqn:E.
  - rewrite (pipeline_empty _ _ _ _ _ _ _ _ _ E).
    split; [congruence | discriminate].
  - assert (Hne : scene_collector S2_SR (region_filter states "Karnataka")
                    (Date 2023 1 1) (Date 2023 12 31) 20 <> [])
      by (rewrite E; discriminate).
    rewrite (pipeline_returns _ _ _ _ _ _ _ _ _ Hne). rewrite E.
    split; [intros _; eexists; reflexivity|].
    intros r Hr. injection Hr as <-. simpl.
    rewrite (compositor_returns (s :: rest) _ ltac:(discriminate)). simpl.
    repeat split. apply labelling_returns.
Qed.

(** Each labelled point carries the class of the raster layer that shows
    its location. *)
Lemma labelled_points_match_raster (img : Image) (region : list Feature) (scale : Z)
    (numPixels : nat) (draws : Z -> list Pixel) (f : Feature) :
  In f (map labelled_point (point_sampler img region scale numPixels draws)) ->
  exists (p : Pixel) (v : Q) (c : DensityClass),
    geometry f = [p] /\ img p = Some v
    /\ get f "NDVI" = Some (Num v)
    /\ get f "Class" = Some (Str (label_of c))
    /\ raster_classes img p = [c].
Proof.
  intros Hf. apply in_map_iff in Hf as (g & <- & Hg).
  unfold point_sampler in Hg. rewrite sample_as_omap in Hg.
  apply list_elem_of_In, list_elem_of_omap in Hg as (p & _ & Hsome).
  destruct (img p) as [v|] eqn:Ev; [|discriminate Hsome].
  apply (inj Some) in Hsome. subst g.
  destruct (class_of_value v p) as (c & _ & _ & Hrc & Hl).
  exists p, v, c. split; [reflexivity|]. split; [exact Ev|].
  split; [reflexivity|]. split.
  - unfold labelled_point.
    change (get (sampled_feature "NDVI" true p v) "NDVI") with (Some (Num v)).
    cbv iota beta. rewrite Hl. unfold get, Feature_Element, set. simpl properties.
    apply lookup_insert_eq.
  - rewrite (raster_classes_defined img p v Ev). exact Hrc.
Qed.

(** Three draws, one of them on a no-data pixel: two points come back. *)
Example sample_underflow :
  length (point_sampler
            (fun p => if covers [(0, 1)%Z] p then None else Some 0.5%Q)
            [named "Karnataka" [(0, 0)%Z; (0, 1)%Z; (0, 2)%Z]]
            1000 3 (fun _ => [(0, 0)%Z; (0, 1)%Z; (0, 2)%Z; (0, 0)%Z]))
  = 2%nat.
Proof. reflexivity. Qed.

(** * Further properties of the script *)

(** ** What each layer shows *)

Ltac layer_range Hv :=
  unfold dense, moderate, sparse, nonveg, Image_And, Image_gt, Image_lte,
    Number_And, Number_gt, Number_lte, Qltb;
  rewrite Hv;
  repeat match goal with
    | |- context [Qle_bool ?x ?y] =>
        let E := fresh "E" in
        destruct (Qle_bool x y) eqn:E;
        [apply Qle_bool_iff in E | apply Qle_bool_false in E]
    end;
  simpl; split; intros H; try discriminate H; try reflexivity; try lra.

(** X1. The layers drawn from the masks show value ranges: a pixel is in
    the dense layer iff its value exceeds 0.6, in the moderate layer iff
    it is above 0.4 and at most 0.6, in the sparse layer iff it is above
    0.2 and at most 0.4, in the built-up layer iff it is at most 0.2; a
    no-data pixel is in none. *)
Theorem layer_value_ranges (ndvi_image : Image) (p : Pixel) :
  (forall v : Q, ndvi_image p = Some v ->
     (in_layer (dense ndvi_image) p = true <-> (0.6 < v)%Q)
     /\ (in_layer (moderate ndvi_image) p = true <-> (0.4 < v /\ v <= 0.6)%Q)
     /\ (in_layer (sparse ndvi_image) p = true <-> (0.2 < v /\ v <= 0.4)%Q)
     /\ (in_layer (nonveg ndvi_image) p = true <-> (v <= 0.2)%Q))
  /\ (ndvi_image p = None ->
      in_layer (dense ndvi_image) p = false
      /\ in_layer (moderate ndvi_image) p = false
      /\ in_layer (sparse ndvi_image) p = false
      /\ in_layer (nonveg ndvi_image) p = false).
Proof.
  split.
  - intros v Hv. unfold in_layer, selfMask.
    split; [|split; [|split]]; layer_range Hv.
  - intros Hv. unfold in_layer, selfMask,
      dense, moderate, sparse, nonveg, Image_And, Image_gt, Image_lte.
    rewrite Hv. repeat split.
Qed.

(** ** The point classifier *)

Ltac label_range :=
  repeat match goal with
    | |- context [Qle_bool ?x ?y] =>
        let E := fresh "E" in
        destruct (Qle_bool x y) eqn:E;
        [apply Qle_bool_iff in E | apply Qle_bool_false in E]
    end;
  split; intros H; try discriminate H; try reflexivity; try lra.

(** X2. The nested conditional of [classify_point] labels by value range:
    "Dense" iff the value exceeds 0.6, "Moderate" iff it is above 0.4 and
    at most 0.6, "Sparse" iff it is above 0.2 and at most 0.4, "Built-up"
    iff it is at most 0.2; no other label is produced. *)
Theorem class_label_ranges (v : Q) :
  (class_label v = "Dense" <-> (0.6 < v)%Q)
  /\ (class_label v = "Moderate" <-> (0.4 < v /\ v <= 0.6)%Q)
  /\ (class_label v = "Sparse" <-> (0.2 < v /\ v <= 0.4)%Q)
  /\ (class_label v = "Built-up" <-> (v <= 0.2)%Q)
  /\ In (class_label v) ["Dense"; "Moderate"; "Sparse"; "Built-up"].
Proof.
  rewrite !class_label_cases.
  split; [|split; [|split; [|split]]]; try label_range.
  destruct (Qle_bool v 0.2), (Qle_bool v 0.4), (Qle_bool v 0.6); simpl; tauto.
Qed.

Lemma class_label_class (v : Q) : exists c : DensityClass, class_label v = label_of c.
Proof.
  rewrite class_label_cases.
  destruct (Qle_bool v 0.2); [exists BuiltUp; reflexivity|].
  destruct (Qle_bool v 0.4); [exists Sparse; reflexivity|].
  destruct (Qle_bool v 0.6); [exists Moderate; reflexivity|].
  exists Dense; reflexivity.
Qed.

Lemma label_of_inj (c c' : DensityClass) : label_of c = label_of c' -> c = c'.
Proof. destruct c, c'; simpl; intros H; try reflexivity; discriminate H. Qed.

(** X3. Classification is monotone: a larger index value never gets a
    lower class, in the order Built-up, Sparse, Moderate, Dense. *)
Theorem class_label_monotone (v w : Q) (c c' : DensityClass) :
  (v <= w)%Q -> class_label v = label_of c -> class_label w = label_of c' ->
  (class_rank c <= class_rank c')%nat.
Proof.
  intros Hle. rewrite !class_label_cases.
  repeat match goal with
    | |- context [Qle_bool ?x ?y] =>
        let E := fresh "E" in
        destruct (Qle_bool x y) eqn:E;
        [apply Qle_bool_iff in E | apply Qle_bool_false in E]
    end;
  intros Hc Hc';
  change "Built-up" with (label_of BuiltUp) in *;
  change "Sparse" with (label_of Sparse) in *;
  change "Moderate" with (label_of Moderate) in *;
  change "Dense" with (label_of Dense) in *;
  apply label_of_inj in Hc; apply label_of_inj in Hc'; subst c c'; simpl;
  try lia; exfalso; lra.
Qed.

Lemma class_label_monotone_witness :
  (class_rank Sparse <= class_rank Dense)%nat.
Proof.
  assert (Hle : (0.3 <= 0.9)%Q) by (unfold Qle; simpl; lia).
  exact (class_label_monotone 0.3 0.9 Sparse Dense Hle eq_refl eq_refl).
Defined.

(** X4. Labelling is idempotent: classifying a point that [classify_point]
    has already labelled returns it unchanged. *)
Theorem classify_point_idempotent (f f' : Feature) :
  classify_point f = Returned f' -> classify_point f' = Returned f'.
Proof.
  unfold classify_point. intros Hf.
  destruct (get f "NDVI") as [[v|s]|] eqn:Ev; simpl in Hf; try discriminate Hf.
  injection Hf as <-.
  assert (Hv : get (set f "Class" (Str (class_label v))) "NDVI" = Some (Num v)).
  { unfold get, Feature_Element, set in *. simpl.
    rewrite lookup_insert_ne by discriminate. exact Ev. }
  rewrite Hv. simpl. f_equal. unfold set. simpl. f_equal.
  apply insert_insert_eq.
Qed.

Lemma classify_point_idempotent_witness :
  classify_point (set (sampled_feature "NDVI" true (1, 2)%Z 0.7) "Class" (Str "Dense"))
  = Returned (set (sampled_feature "NDVI" true (1, 2)%Z 0.7) "Class" (Str "Dense")).
Proof.
  exact (classify_point_idempotent (sampled_feature "NDVI" true (1, 2)%Z 0.7) _ eq_refl).
Defined.

(** ** The labelled points and their layers *)

Lemma class_points_In (pts : list Feature) (label : string) (f : Feature) :
  In f (class_points pts label) <-> In f pts /\ get f "Class" = Some (Str label).
Proof.
  unfold class_points, filter. rewrite filter_In. simpl.
  destruct (get f "Class") as [v|].
  - rewrite Value_eqb_Str. split; intros [Hin Hv]; (split; [exact Hin|]); congruence.
  - split; intros [_ Hv]; discriminate Hv.
Qed.

(** X6. Whenever the script's labelled points evaluate, each of them is
    a point inside Karnataka, carries the composite's value at its location
    as "NDVI" and, as "Class", the label of the one mask layer that shows
    that location. *)
Theorem points_spec (S2_SR : list Scene) (states : list Feature)
    (draws : Z -> list Pixel) (img : Image) (pts : list Feature) :
  ndvi_image S2_SR states = Returned img ->
  points S2_SR states draws = Returned pts ->
  forall f : Feature, In f pts ->
    exists (p : Pixel) (v : Q) (c : DensityClass),
      geometry f = [p]
      /\ covers (Collection_geometry (karnataka states)) p = true
      /\ img p = Some v
      /\ get f "NDVI" = Some (Num v)
      /\ get f "Class" = Some (Str (label_of c))
      /\ in_layer (mask_of c img) p = true
      /\ raster_classes img p = [c].
Proof.
  intros Himg Hpts f Hf. unfold points in Hpts. rewrite Himg in Hpts.
  simpl in Hpts. rewrite labelling_returns in Hpts. injection Hpts as <-.
  set (reg := karnataka states) in *.
  destruct (labelled_points_match_raster img reg 1000 300 draws f Hf)
    as (p & v & c & Hg & Hv & Hn & Hc & Hrc).
  exists p, v, c. repeat split; try assumption.
  - apply in_map_iff in Hf as (g & Hlab & Hg').
    unfold point_sampler in Hg'. rewrite sample_as_omap in Hg'.
    apply list_elem_of_In, list_elem_of_omap in Hg' as (q & Hq & Hsome).
    destruct (img q) as [w|]; [|discriminate Hsome].
    apply (inj Some) in Hsome. subst g.
    assert (Hgeo : geometry (labelled_point (sampled_feature "NDVI" true q w)) = [q])
      by reflexivity.
    rewrite Hlab, Hg in Hgeo. injection Hgeo as ->.
    apply (drawn_in_region reg 1000 300 draws q), list_elem_of_In, Hq.
  - assert (Hin : In c (raster_classes img p)) by (rewrite Hrc; left; reflexivity).
    unfold raster_classes in Hin. apply filter_In in Hin as [_ Hin]. exact Hin.
Qed.

Lemma points_spec_witness :
  exists (p : Pixel) (v : Q) (c : DensityClass),
    (composite_raster [scene_at (Date 2023 6 1) 5] (karnataka two_states)) p = Some v
    /\ in_layer (mask_of c (composite_raster [scene_at (Date 2023 6 1) 5] (karnataka two_states))) p = true.
Proof.
  assert (Himg : ndvi_image [scene_at (Date 2023 6 1) 5] two_states
                 = Returned (composite_raster [scene_at (Date 2023 6 1) 5] (karnataka two_states))) by reflexivity.
  assert (Hpts : points [scene_at (Date 2023 6 1) 5] two_states (fun _ => [(0, 0)%Z])
                 = Returned [labelled_point
                               (sampled_feature "NDVI" true (0, 0)%Z
                                  ((0.8 - 0.2) / (0.8 + 0.2)))]) by reflexivity.
  destruct (points_spec _ _ _ _ _ Himg Hpts _ (or_introl eq_refl))
    as (p & v & c & _ & _ & Hv & _ & _ & Hl & _).
  exists p, v, c. split; assumption.
Defined.

(** Features with a class label go to the layer of that label only. *)
Lemma class_points_cons (f : Feature) (pts : list Feature) (c c' : DensityClass) :
  get f "Class" = Some (Str (label_of c)) ->
  class_points (f :: pts) (label_of c')
  = if class_eqb c c' then f :: class_points pts (label_of c')
    else class_points pts (label_of c').
Proof.
  intros Hc. unfold class_points, filter. simpl. rewrite Hc. simpl.
  destruct c, c'; reflexivity.
Qed.

Lemma class_points_partition (pts : list Feature) :
  (forall f : Feature, In f pts ->
     exists c : DensityClass, get f "Class" = Some (Str (label_of c))) ->
  Permutation (class_points pts "Dense" ++ class_points pts "Moderate"
               ++ class_points pts "Sparse" ++ class_points pts "Built-up") pts.
Proof.
  induction pts as [|f pts IH]; intros Hc; [reflexivity|].
  destruct (Hc f (or_introl eq_refl)) as [c Hf].
  specialize (IH (fun g Hg => Hc g (or_intror Hg))).
  change "Dense" with (label_of Dense). change "Moderate" with (label_of Moderate).
  change "Sparse" with (label_of Sparse). change "Built-up" with (label_of BuiltUp).
  rewrite !(class_points_cons f pts c _ Hf).
  destruct c; simpl.
  - constructor. exact IH.
  - rewrite <- Permutation_middle. constructor. exact IH.
  - rewrite app_assoc, <- Permutation_middle, <- app_assoc.
    constructor. exact IH.
  - rewrite !app_assoc, <- Permutation_middle, <- !app_assoc.
    constructor. exact IH.
Qed.

(** X7. The four point layers partition the labelled points: whenever
    the labelled points evaluate, the collections filtered on "Dense",
    "Moderate", "Sparse" and "Built-up" taken together are those points,
    each exactly once, and a feature is never in the layers of two
    different labels. *)
Theorem point_layers_partition (S2_SR : list Scene) (states : list Feature)
    (draws : Z -> list Pixel) :
  (forall pts : list Feature,
      points S2_SR states draws = Returned pts ->
      Permutation (class_points pts "Dense" ++ class_points pts "Moderate"
                   ++ class_points pts "Sparse" ++ class_points pts "Built-up") pts)
  /\ (forall (pts : list Feature) (l1 l2 : string) (f : Feature),
        In f (class_points pts l1) -> In f (class_points pts l2) -> l1 = l2).
Proof.
  split.
  - intros pts Hpts. unfold points in Hpts.
    destruct (ndvi_image S2_SR states) as [img|e]; [|discriminate Hpts].
    simpl in Hpts. rewrite labelling_returns in Hpts. injection Hpts as <-.
    apply class_points_partition. intros f Hf.
    destruct (labelled_points_match_raster _ _ _ _ _ f Hf)
      as (p & v & c & _ & _ & _ & Hc & _).
    exists c. exact Hc.
  - intros pts l1 l2 f H1 H2.
    apply class_points_In in H1 as [_ H1]. apply class_points_In in H2 as [_ H2].
    congruence.
Qed.

(** ** Scenes the collector rejects *)

Lemma collection_as_filter (S2_SR : list Scene) (states : list Feature) :
  collection S2_SR states
  = List.filter
      (fun s => intersects (footprint s) (Collection_geometry (karnataka states))
                && ((Date 2023 1 1 <=? time_start s)%Z
                    && (time_start s <? Date 2023 12 31)%Z
                    && Filter_apply (Filter_lt "CLOUDY_PIXEL_PERCENTAGE" 20) s))
      S2_SR.
Proof. unfold collection. apply scene_collector_as_filter. Qed.

Lemma accepted_filter (s : Scene) (states : list Feature) :
  intersects (footprint s) (Collection_geometry (karnataka states))
  && ((Date 2023 1 1 <=? time_start s)%Z && (time_start s <? Date 2023 12 31)%Z
      && Filter_apply (Filter_lt "CLOUDY_PIXEL_PERCENTAGE" 20) s) = true
  <-> accepted s states.
Proof.
  unfold accepted. rewrite !andb_true_iff.
  rewrite intersects_in_bounds, cloud_filter_lt, Z.leb_le, Z.ltb_lt. tauto.
Qed.

Lemma filter_drop {A : Type} (f : A -> bool) (l1 l2 : list A) (x : A) :
  f x = false -> List.filter f (l1 ++ x :: l2) = List.filter f (l1 ++ l2).
Proof.
  intros Hx. rewrite !List.filter_app. simpl. rewrite Hx. reflexivity.
Qed.

(** X9. A scene that fails one of the collection's conditions (outside
    Karnataka, acquired outside 2023-01-01 to 2023-12-31, 20 percent cloud
    or more, or without cloud metadata) has no influence: with or without
    it in the source, the collection and the composite are the same. *)
Theorem rejected_scene_has_no_influence (before after : list Scene) (s : Scene)
    (states : list Feature) :
  ~ accepted s states ->
  collection (before ++ s :: after) states = collection (before ++ after) states
  /\ ndvi_image (before ++ s :: after) states = ndvi_image (before ++ after) states.
Proof.
  intros Hrej.
  assert (Hc : collection (before ++ s :: after) states
               = collection (before ++ after) states).
  { rewrite !collection_as_filter. apply filter_drop.
    apply not_true_is_false. intros E. apply Hrej, accepted_filter, E. }
  split; [exact Hc|]. unfold ndvi_image. rewrite Hc. reflexivity.
Qed.

Lemma rejected_scene_has_no_influence_witness :
  ndvi_image [scene_at (Date 2023 6 1) 5; scene_at (Date 2023 6 1) 20] two_states
  = ndvi_image [scene_at (Date 2023 6 1) 5] two_states.
Proof.
  assert (Hrej : ~ accepted (scene_at (Date 2023 6 1) 20) two_states).
  { intros (_ & _ & c & Hc & Hlt).
    change (Some (Num 20) = Some (Num c)) in Hc. injection Hc as <-.
    revert Hlt. unfold Qlt. simpl. lia. }
  exact (proj2 (rejected_scene_has_no_influence [scene_at (Date 2023 6 1) 5] []
                  (scene_at (Date 2023 6 1) 20) two_states Hrej)).
Defined.

(** ** The per-scene index *)

Lemma negative_false (x : Q) : negative x = false <-> (0 <= x)%Q.
Proof.
  unfold negative, Qltb. rewrite negb_false_iff. apply Qle_bool_iff.
Qed.

Lemma ndvi_defined (s : Scene) (p : Pixel) (v : Q) :
  NDVI (add_ndvi s) p = Some v ->
  exists a b : Q,
    B8 s p = Some a /\ B4 s p = Some b
    /\ (0 <= a)%Q /\ (0 <= b)%Q /\ (0 < a + b)%Q
    /\ v = ((a - b) / (a + b))%Q.
Proof.
  simpl. unfold normalizedDifference.
  destruct (B8 s p) as [a|]; [|discriminate].
  destruct (B4 s p) as [b|]; [|discriminate].
  destruct (negative a) eqn:Ea; [discriminate|].
  destruct (negative b) eqn:Eb; [discriminate|]. simpl.
  destruct (Qeq_bool (a + b) 0) eqn:Es; [discriminate|].
  intros Hv. injection Hv as <-.
  apply negative_false in Ea. apply negative_false in Eb.
  exists a, b. repeat split; try assumption.
  apply Qeq_bool_neq in Es.
  destruct (Qlt_le_dec 0 (a + b)) as [Hpos|Hneg]; [exact Hpos|].
  exfalso. apply Es. lra.
Qed.

(** X11. Where the index of a scene is defined, both bands are defined
    and non-negative with a positive sum, the index is
    [(B8 - B4) / (B8 + B4)], it lies between -1 and 1, and it is positive
    exactly when B8 exceeds B4. *)
Theorem ndvi_value (s : Scene) (p : Pixel) (v : Q) :
  NDVI (add_ndvi s) p = Some v ->
  exists a b : Q,
    B8 s p = Some a /\ B4 s p = Some b
    /\ (0 <= a)%Q /\ (0 <= b)%Q /\ (0 < a + b)%Q
    /\ v = ((a - b) / (a + b))%Q
    /\ (-1 <= v)%Q /\ (v <= 1)%Q
    /\ ((0 < v)%Q <-> (b < a)%Q).
Proof.
  intros Hv. destruct (ndvi_defined s p v Hv) as (a & b & Ha & Hb & Ha0 & Hb0 & Hs & ->).
  exists a, b. repeat split; try assumption.
  - apply Qle_shift_div_l; [exact Hs | lra].
  - apply Qle_shift_div_r; [exact Hs | lra].
  - intros Hpos.
    assert (Hmul : ((a - b) / (a + b) * (a + b) == a - b)%Q) by (field; lra).
    nra.
  - intros Hlt. apply Qlt_shift_div_l; [exact Hs | lra].
Qed.

Lemma ndvi_value_witness :
  exists a b : Q,
    B8 (scene_at 0 5) (0, 0)%Z = Some a /\ B4 (scene_at 0 5) (0, 0)%Z = Some b
    /\ (b < a)%Q.
Proof.
  destruct (ndvi_value (scene_at 0 5) (0, 0)%Z _ eq_refl)
    as (a & b & Ha & Hb & _ & _ & _ & Hv & _ & _ & Hiff).
  exists a, b. split; [exact Ha|]. split; [exact Hb|].
  apply Hiff. rewrite Hv. injection Ha as <-. injection Hb as <-. reflexivity.
Defined.

(** ** The composite and the scene values *)

Lemma defined_values_In (scenes : list Scene) (p : Pixel) (v : Q) :
  In v (defined_values (scene_indices scenes) p)
  <-> exists s : Scene, In s scenes /\ NDVI (add_ndvi s) p = Some v.
Proof.
  unfold defined_values, scene_indices.
  rewrite <- list_elem_of_In, list_elem_of_omap. split.
  - intros (img & Himg & Hv).
    apply list_elem_of_In, in_map_iff in Himg as (ns & <- & Hns).
    apply in_map_iff in Hns as (s & <- & Hs). exists s. split; assumption.
  - intros (s & Hs & Hv). exists (NDVI (add_ndvi s)). split; [|exact Hv].
    apply list_elem_of_In, in_map, in_map, Hs.
Qed.

(** The median lies between two of the values it is taken of; for an odd
    number of values it is one of them. *)
Lemma Reducer_median_between (l : list Q) (m : Q) :
  Reducer_median l = Some m ->
  (exists x y : Q, In x l /\ In y l /\ (x <= m)%Q /\ (m <= y)%Q)
  /\ (Nat.even (length l) = false -> In m l).
Proof.
  intros Hm.
  assert (Hne : l <> []) by (intros ->; discriminate Hm).
  rewrite (Reducer_median_nonempty l Hne) in Hm.
  assert (Hpos : (0 < length l)%nat) by (destruct l; [congruence | simpl; lia]).
  pose proof (Qsort_perm l) as Hperm.
  pose proof (Qsort_sorted l) as Hs.
  pose proof (Permutation_length Hperm) as En.
  set (s := Qsort l) in *. set (n := length l) in *.
  set (h := (n / 2)%nat) in *.
  destruct (Nat.even n) eqn:Ev; apply (inj Some) in Hm; rewrite <- Hm; clear Hm.
  - pose proof (half_even n Ev) as Hn. fold h in Hn.
    set (a := nth (h - 1) s 0%Q). set (b := nth h s 0%Q).
    assert (Hab : (a <= b)%Q) by (apply sorted_nth_le; [exact Hs | lia | lia]).
    split; [|discriminate].
    exists a, b. repeat split.
    + apply (Permutation_in _ Hperm), nth_In. lia.
    + apply (Permutation_in _ Hperm), nth_In. lia.
    + apply Qle_shift_div_l; lra.
    + apply Qle_shift_div_r; lra.
  - pose proof (half_odd n Ev) as Hn. fold h in Hn.
    assert (Hin : In (nth h s 0%Q) l)
      by (apply (Permutation_in _ Hperm), nth_In; lia).
    split; [|intros _; exact Hin].
    exists (nth h s 0%Q), (nth h s 0%Q).
    repeat split; try exact Hin; apply Qle_refl.
Qed.

(** X13. The composite invents no data: where it holds a value, the pixel
    is inside the region and the value lies between the index values of
    two scenes of the set at that pixel; when the number of scenes with a
    defined index there is odd, it is the index value of one of them. *)
Theorem composite_between_scene_values (scenes : list Scene) (region : list Feature)
    (img : Image) (p : Pixel) (m : Q) :
  compositor scenes region = Returned img -> img p = Some m ->
  covers (Collection_geometry region) p = true
  /\ (exists (s1 s2 : Scene) (v1 v2 : Q),
        In s1 scenes /\ In s2 scenes
        /\ NDVI (add_ndvi s1) p = Some v1 /\ NDVI (add_ndvi s2) p = Some v2
        /\ (v1 <= m)%Q /\ (m <= v2)%Q)
  /\ (Nat.even (length (defined_values (scene_indices scenes) p)) = false ->
      exists s : Scene, In s scenes /\ NDVI (add_ndvi s) p = Some m).
Proof.
  intros Hr. apply compositor_inv in Hr as [_ ->].
  rewrite composite_raster_at.
  destruct (covers (Collection_geometry region) p); [|discriminate].
  intros Hm. split; [reflexivity|].
  destruct (Reducer_median_between _ m Hm) as [(x & y & Hx & Hy & Hxm & Hmy) Hodd].
  apply defined_values_In in Hx as (s1 & Hs1 & Hv1).
  apply defined_values_In in Hy as (s2 & Hs2 & Hv2).
  split.
  - exists s1, s2, x, y. repeat split; assumption.
  - intros Ho. apply defined_values_In, Hodd, Ho.
Qed.

Lemma composite_between_scene_values_witness :
  covers (Collection_geometry one_cell_region) (0, 0)%Z = true.
Proof.
  assert (Hr : compositor [uniform_scene [(0, 0)%Z] 0.8 0.2] one_cell_region
               = Returned (composite_raster [uniform_scene [(0, 0)%Z] 0.8 0.2]
                             one_cell_region)) by reflexivity.
  assert (Hm : composite_raster [uniform_scene [(0, 0)%Z] 0.8 0.2] one_cell_region (0, 0)%Z
               = Some ((0.8 - 0.2) / (0.8 + 0.2))%Q) by reflexivity.
  exact (proj1 (composite_between_scene_values _ _ _ _ _ Hr Hm)).
Defined.

(** X14. Every value of the script's NDVI image lies between -1 and 1,
    the range the heatmap layer is drawn with. *)
Theorem ndvi_image_range (S2_SR : list Scene) (states : list Feature)
    (img : Image) (p : Pixel) (v : Q) :
  ndvi_image S2_SR states = Returned img -> img p = Some v ->
  (-1 <= v)%Q /\ (v <= 1)%Q.
Proof.
  unfold ndvi_image. intros Hr. apply compositor_inv in Hr as [_ ->].
  rewrite composite_raster_at.
  destruct (covers (Collection_geometry (karnataka states)) p); [|discriminate].
  intros Hm.
  destruct (Reducer_median_between _ v Hm) as [(x & y & Hx & Hy & Hxm & Hmy) _].
  apply defined_values_In in Hx as (s1 & _ & Hv1).
  apply defined_values_In in Hy as (s2 & _ & Hv2).
  destruct (ndvi_defined s1 p x Hv1) as (a & b & _ & _ & Ha & Hb & Hs & ->).
  destruct (ndvi_defined s2 p y Hv2) as (a' & b' & _ & _ & Ha' & Hb' & Hs' & ->).
  split.
  - apply Qle_trans with ((a - b) / (a + b))%Q; [|exact Hxm].
    apply Qle_shift_div_l; [exact Hs | lra].
  - apply Qle_trans with ((a' - b') / (a' + b'))%Q; [exact Hmy|].
    apply Qle_shift_div_r; [exact Hs' | lra].
Qed.

Lemma ndvi_image_range_witness :
  (-1 <= (0.8 - 0.2) / (0.8 + 0.2))%Q /\ ((0.8 - 0.2) / (0.8 + 0.2) <= 1)%Q.
Proof.
  assert (Hr : ndvi_image [scene_at (Date 2023 6 1) 5] two_states
               = Returned (composite_raster [scene_at (Date 2023 6 1) 5]
                             (karnataka two_states))) by reflexivity.
  assert (Hm : composite_raster [scene_at (Date 2023 6 1) 5] (karnataka two_states)
                 (0, 0)%Z
               = Some ((0.8 - 0.2) / (0.8 + 0.2))%Q) by reflexivity.
  exact (ndvi_image_range _ _ _ _ _ Hr Hm).
Defined.

(** ** The order of the scenes *)

Lemma count_le_none (l : list Q) (m : Q) :
  Forall (fun y => (m < y)%Q) l -> count_le l m = 0%nat.
Proof.
  unfold count_le. induction 1 as [|y l Hy Hall IH]; simpl; [reflexivity|].
  apply Qle_bool_false in Hy. rewrite Hy. exact IH.
Qed.

Lemma count_le_length (l : list Q) (m : Q) : (count_le l m <= length l)%nat.
Proof. unfold count_le. apply List.filter_length_le. Qed.

(** In a sorted list, the element of rank [k] is at most [m] as soon as
    more than [k] elements are. *)
Lemma sorted_rank_inv (s : list Q) (k : nat) (m : Q) :
  StronglySorted Qle s -> (k < length s)%nat ->
  (k + 1 <= count_le s m)%nat -> (nth k s 0 <= m)%Q.
Proof.
  intros Hs Hk Hcount.
  destruct (Qlt_le_dec m (nth k s 0%Q)) as [Hlt|Hle]; [|exact Hle].
  exfalso.
  pose proof (split_at s k Hk) as Hsplit.
  set (x := nth k s 0%Q) in *.
  rewrite Hsplit in Hs. apply sorted_middle in Hs as [_ Hhigh].
  rewrite Hsplit, count_le_app in Hcount.
  rewrite (count_le_none (x :: drop (S k) s) m) in Hcount.
  - pose proof (count_le_length (take k s) m) as Hlen.
    rewrite length_take in Hlen. lia.
  - constructor; [exact Hlt|].
    eapply List.Forall_impl; [|exact Hhigh]. intros y Hy. simpl in Hy.
    apply Qlt_le_trans with x; assumption.
Qed.

(** Two sorted arrangements of the same values agree rank by rank. *)
Lemma sorted_perm_nth (s s' : list Q) (k : nat) :
  StronglySorted Qle s -> StronglySorted Qle s' -> Permutation s s' ->
  (k < length s)%nat -> (nth k s 0 == nth k s' 0)%Q.
Proof.
  intros Hs Hs' Hperm Hk.
  assert (Hk' : (k < length s')%nat) by (rewrite <- (Permutation_length Hperm); exact Hk).
  apply Qle_antisym.
  - apply sorted_rank_inv; [exact Hs | exact Hk|].
    rewrite (count_le_perm s s' _ Hperm).
    apply (sorted_rank s' k _ Hs' Hk'), Qle_refl.
  - apply sorted_rank_inv; [exact Hs' | exact Hk'|].
    rewrite <- (count_le_perm s s' _ Hperm).
    apply (sorted_rank s k _ Hs Hk), Qle_refl.
Qed.

Lemma Reducer_median_perm (l l' : list Q) :
  Permutation l l' -> same_value (Reducer_median l) (Reducer_median l').
Proof.
  intros Hperm.
  destruct l as [|x l].
  { apply Permutation_nil in Hperm. subst l'. exact I. }
  assert (Hne : x :: l <> []) by discriminate.
  assert (Hne' : l' <> []).
  { intros ->. apply Permutation_sym, Permutation_nil in Hperm. discriminate Hperm. }
  rewrite (Reducer_median_nonempty _ Hne), (Reducer_median_nonempty _ Hne').
  rewrite <- (Permutation_length Hperm).
  set (n := length (x :: l)).
  assert (Hpos : (0 < n)%nat) by (unfold n; simpl; lia).
  assert (Hsp : Permutation (Qsort (x :: l)) (Qsort l')).
  { rewrite !Qsort_perm. exact Hperm. }
  assert (Hlen : length (Qsort (x :: l)) = n) by apply Permutation_length, Qsort_perm.
  pose proof (Qsort_sorted (x :: l)) as Hs. pose proof (Qsort_sorted l') as Hs'.
  set (h := (n / 2)%nat).
  destruct (Nat.even n) eqn:Ev; unfold same_value.
  - pose proof (half_even n Ev) as Hn. fold h in Hn.
    rewrite (sorted_perm_nth _ _ (h - 1) Hs Hs' Hsp) by lia.
    rewrite (sorted_perm_nth _ _ h Hs Hs' Hsp) by lia.
    reflexivity.
  - pose proof (half_odd n Ev) as Hn. fold h in Hn.
    apply sorted_perm_nth; [exact Hs | exact Hs' | exact Hsp | lia].
Qed.

(** X16. The composite does not depend on the order of the scenes: two
    scene sets that are rearrangements of each other fail together or
    return together, and then give, at every pixel, composites that are
    both no-data or equal in value, hence in the same class. *)
Theorem composite_order_independent (scenes scenes' : list Scene)
    (region : list Feature) (p : Pixel) :
  Permutation scenes scenes' ->
  (forall e : Failure,
      compositor scenes region = Raised e <-> compositor scenes' region = Raised e)
  /\ (forall img img' : Image,
        compositor scenes region = Returned img ->
        compositor scenes' region = Returned img' ->
        same_value (img p) (img' p)
        /\ (forall m m' : Q,
              img p = Some m -> img' p = Some m' -> class_label m = class_label m')).
Proof.
  intros Hperm. split.
  - intros e. split; intros Hr; apply compositor_raises in Hr as [-> ->].
    + apply Permutation_nil in Hperm. subst scenes'. reflexivity.
    + apply Permutation_sym, Permutation_nil in Hperm. subst scenes. reflexivity.
  - intros img img' Hr Hr'.
    apply compositor_inv in Hr as [_ ->]. apply compositor_inv in Hr' as [_ ->].
    assert (Hsame : same_value (composite_raster scenes region p)
                      (composite_raster scenes' region p)).
    { rewrite !composite_raster_at.
      destruct (covers (Collection_geometry region) p); [|exact I].
      apply Reducer_median_perm. unfold defined_values, scene_indices.
      apply omap_Permutation, Permutation_map, Permutation_map, Hperm. }
    split; [exact Hsame|].
    intros m m' Hm Hm'. rewrite Hm, Hm' in Hsame.
    apply class_label_eq, Hsame.
Qed.

Lemma composite_order_independent_witness :
  same_value
    (composite_raster
       [uniform_scene [(0, 0)%Z] 0.75 0.25; uniform_scene [(0, 0)%Z] 0.85 0.15]
       one_cell_region (0, 0)%Z)
    (composite_raster
       [uniform_scene [(0, 0)%Z] 0.85 0.15; uniform_scene [(0, 0)%Z] 0.75 0.25]
       one_cell_region (0, 0)%Z).
Proof.
  exact (proj1 (proj2 (composite_order_independent _ _ one_cell_region (0, 0)%Z
                         (perm_swap (uniform_scene [(0, 0)%Z] 0.85 0.15)
                            (uniform_scene [(0, 0)%Z] 0.75 0.25) []))
                 _ _ eq_refl eq_refl)).
Defined.

(** ** Agreement and outliers *)

Lemma count_le_pos (l : list Q) (m : Q) :
  (1 <= count_le l m)%nat -> exists y : Q, In y l /\ (y <= m)%Q.
Proof.
  unfold count_le. intros Hc.
  destruct (List.filter (fun x => Qle_bool x m) l) as [|y rest] eqn:E;
    [simpl in Hc; lia|].
  assert (Hin : In y (List.filter (fun x => Qle_bool x m) l))
    by (rewrite E; left; reflexivity).
  apply filter_In in Hin as [Hin Hle]. apply Qle_bool_iff in Hle. eauto.
Qed.

Lemma count_ge_pos (l : list Q) (m : Q) :
  (1 <= count_ge l m)%nat -> exists y : Q, In y l /\ (m <= y)%Q.
Proof.
  unfold count_ge. intros Hc.
  destruct (List.filter (fun x => Qle_bool m x) l) as [|y rest] eqn:E;
    [simpl in Hc; lia|].
  assert (Hin : In y (List.filter (fun x => Qle_bool m x) l))
    by (rewrite E; left; reflexivity).
  apply filter_In in Hin as [Hin Hle]. apply Qle_bool_iff in Hle. eauto.
Qed.

Lemma count_le_middle (l1 l2 : list Q) (x m : Q) :
  (count_le (l1 ++ x :: l2) m <= S (count_le (l1 ++ l2) m))%nat.
Proof.
  rewrite !count_le_app. change (x :: l2) with ([x] ++ l2). rewrite count_le_app.
  unfold count_le at 2. simpl. destruct (Qle_bool x m); simpl; lia.
Qed.

Lemma count_ge_middle (l1 l2 : list Q) (x m : Q) :
  (count_ge (l1 ++ x :: l2) m <= S (count_ge (l1 ++ l2) m))%nat.
Proof.
  rewrite !count_ge_app. change (x :: l2) with ([x] ++ l2). rewrite count_ge_app.
  unfold count_ge at 2. simpl. destruct (Qle_bool m x); simpl; lia.
Qed.

(** X15. Where the scenes agree the composite is their common value: if
    at a pixel of the region at least one scene has a defined index and
    all defined indices equal [v], the composite there is [v]; a single
    scene passes through unchanged. *)
Theorem composite_of_agreeing_scenes (scenes : list Scene) (region : list Feature)
    (p : Pixel) (v : Q) :
  covers (Collection_geometry region) p = true ->
  (exists s : Scene, In s scenes /\ NDVI (add_ndvi s) p <> None) ->
  (forall (s : Scene) (w : Q), In s scenes -> NDVI (add_ndvi s) p = Some w -> (w == v)%Q) ->
  exists (img : Image) (m : Q),
    compositor scenes region = Returned img /\ img p = Some m /\ (m == v)%Q.
Proof.
  intros Hin (s & Hs & Hdef) Hall.
  exists (composite_raster scenes region).
  rewrite compositor_returns by (intros ->; exact Hs).
  rewrite composite_raster_at, Hin.
  destruct (Reducer_median (defined_values (scene_indices scenes) p)) as [m|] eqn:Em.
  - exists m. split; [reflexivity|]. split; [reflexivity|].
    destruct (Reducer_median_between _ m Em) as [(x & y & Hx & Hy & Hxm & Hmy) _].
    apply defined_values_In in Hx as (s1 & Hs1 & Hv1).
    apply defined_values_In in Hy as (s2 & Hs2 & Hv2).
    pose proof (Hall s1 x Hs1 Hv1) as Hx. pose proof (Hall s2 y Hs2 Hv2) as Hy.
    apply Qle_antisym; [rewrite <- Hy; exact Hmy | rewrite <- Hx; exact Hxm].
  - exfalso. apply Reducer_median_None in Em.
    destruct (NDVI (add_ndvi s) p) as [w|] eqn:Ew; [|congruence].
    assert (Hw : In w (defined_values (scene_indices scenes) p))
      by (apply defined_values_In; eauto).
    rewrite Em in Hw. exact Hw.
Qed.

Lemma composite_of_agreeing_scenes_witness :
  exists (img : Image) (m : Q),
    compositor [uniform_scene [(0, 0)%Z] 0.75 0.25] one_cell_region = Returned img
    /\ img (0, 0)%Z = Some m
    /\ (m == 0.5)%Q.
Proof.
  apply (composite_of_agreeing_scenes [uniform_scene [(0, 0)%Z] 0.75 0.25]
           one_cell_region (0, 0)%Z 0.5 eq_refl).
  - exists (uniform_scene [(0, 0)%Z] 0.75 0.25).
    split; [left; reflexivity | discriminate].
  - intros s w [<-|[]] Hw. injection Hw as <-. reflexivity.
Defined.

(** X17. One scene alone cannot drag the composite away: when at least
    two other scenes have a defined index at a pixel, the composite there
    lies between the index values of two of those other scenes, whatever
    the value of the remaining scene. *)
Theorem composite_resists_one_outlier (before after : list Scene) (s : Scene)
    (region : list Feature) (img : Image) (p : Pixel) (m : Q) :
  (2 <= length (defined_values (scene_indices (before ++ after)) p))%nat ->
  compositor (before ++ s :: after) region = Returned img -> img p = Some m ->
  exists (s1 s2 : Scene) (v1 v2 : Q),
    In s1 (before ++ after) /\ In s2 (before ++ after)
    /\ NDVI (add_ndvi s1) p = Some v1 /\ NDVI (add_ndvi s2) p = Some v2
    /\ (v1 <= m)%Q /\ (m <= v2)%Q.
Proof.
  intros Hlen Hr Hm. apply compositor_inv in Hr as [_ ->].
  assert (Hothers : exists x y : Q,
            In x (defined_values (scene_indices (before ++ after)) p)
            /\ In y (defined_values (scene_indices (before ++ after)) p)
            /\ (x <= m)%Q /\ (m <= y)%Q).
  { destruct (NDVI (add_ndvi s) p) as [w|] eqn:Ew.
    - rewrite composite_raster_at in Hm.
      destruct (covers (Collection_geometry region) p); [|discriminate Hm].
      apply Reducer_median_is_median in Hm as [Hle Hge].
      rewrite defined_values_insert, defined_values_single, Ew in Hle, Hge.
      rewrite scene_indices_app, defined_values_app in Hlen |- *.
      set (l1 := defined_values (scene_indices before) p) in *.
      set (l2 := defined_values (scene_indices after) p) in *.
      change ([w] ++ l2) with (w :: l2) in Hle, Hge.
      pose proof (count_le_middle l1 l2 w m) as Hcl.
      pose proof (count_ge_middle l1 l2 w m) as Hcg.
      rewrite length_app in Hle, Hge, Hlen. simpl in Hle, Hge.
      destruct (count_le_pos (l1 ++ l2) m ltac:(lia)) as (x & Hx & Hxm).
      destruct (count_ge_pos (l1 ++ l2) m ltac:(lia)) as (y & Hy & Hmy).
      exists x, y. repeat split; assumption.
    - rewrite (masked_scene_excluded before after s region p Ew) in Hm.
      rewrite composite_raster_at in Hm.
      destruct (covers (Collection_geometry region) p); [|discriminate Hm].
      destruct (Reducer_median_between _ m Hm) as [(x & y & Hx & Hy & Hxm & Hmy) _].
      exists x, y. repeat split; assumption. }
  destruct Hothers as (x & y & Hx & Hy & Hxm & Hmy).
  apply defined_values_In in Hx as (s1 & Hs1 & Hv1).
  apply defined_values_In in Hy as (s2 & Hs2 & Hv2).
  exists s1, s2, x, y. repeat split; assumption.
Qed.

Lemma composite_resists_one_outlier_witness :
  exists (s1 s2 : Scene) (v1 v2 : Q),
    In s1 [uniform_scene [(0, 0)%Z] 0.75 0.25; uniform_scene [(0, 0)%Z] 0.85 0.15]
    /\ In s2 [uniform_scene [(0, 0)%Z] 0.75 0.25; uniform_scene [(0, 0)%Z] 0.85 0.15]
    /\ NDVI (add_ndvi s1) (0, 0)%Z = Some v1 /\ NDVI (add_ndvi s2) (0, 0)%Z = Some v2
    /\ (v1 <= (0.75 - 0.25) / (0.75 + 0.25))%Q
    /\ ((0.75 - 0.25) / (0.75 + 0.25) <= v2)%Q.
Proof.
  assert (Hlen : (2 <= length (defined_values
                    (scene_indices ([uniform_scene [(0, 0)%Z] 0.75 0.25]
                                    ++ [uniform_scene [(0, 0)%Z] 0.85 0.15]))
                    (0, 0)%Z))%nat) by (simpl; lia).
  exact (composite_resists_one_outlier [uniform_scene [(0, 0)%Z] 0.75 0.25]
           [uniform_scene [(0, 0)%Z] 0.85 0.15] (uniform_scene [(0, 0)%Z] 0 1)
           one_cell_region _ (0, 0)%Z _ Hlen eq_refl eq_refl).
Defined.
